(** * markdown2weixin: the upload command of [src/extension.ts]

    A shallow embedding of the extension's four functions
    ([getConfiguration], [extractTitle], [callWeChatApi], [uploadToWeChat])
    together with the pieces of the JavaScript runtime they rely on:
    strings as sequences of UTF-16 code units, [String.prototype.trim],
    the backtracking regular-expression matcher behind
    [String.prototype.match], and the editor host (settings, notifications,
    clipboard, [fetch]) as an explicit record of inputs and a log of
    host calls. *)

From stdpp Require Import base option list strings gmap.
From Stdlib Require Import NArith DecimalN DecimalString Lia.

Local Open Scope N_scope.
Local Open Scope list_scope.

(** ** JavaScript strings

    A JavaScript string is a finite sequence of 16-bit code units; the
    regular expressions of the source carry no [u] flag, so they too work
    on code units. *)

Abbreviation str := (list N).

Module Utf.

(** String literals of the source are written here as Rocq strings (UTF-8
    bytes) and decoded to the code units the JavaScript engine sees. *)

Definition cont (b : N) : N := N.land b 63.

Fixpoint codePoints (bs : list N) : list N :=
  match bs with
  | [] => []
  | b0 :: r0 =>
      if b0 <? 128 then b0 :: codePoints r0
      else if b0 <? 224 then
        match r0 with
        | b1 :: r1 =>
            N.lor (N.shiftl (N.land b0 31) 6) (cont b1) :: codePoints r1
        | _ => []
        end
      else if b0 <? 240 then
        match r0 with
        | b1 :: b2 :: r2 =>
            N.lor (N.shiftl (N.land b0 15) 12)
              (N.lor (N.shiftl (cont b1) 6) (cont b2)) :: codePoints r2
        | _ => []
        end
      else
        match r0 with
        | b1 :: b2 :: b3 :: r3 =>
            N.lor (N.shiftl (N.land b0 7) 18)
              (N.lor (N.shiftl (cont b1) 12)
                 (N.lor (N.shiftl (cont b2) 6) (cont b3))) :: codePoints r3
        | _ => []
        end
  end.

Definition codeUnits (cp : N) : list N :=
  if cp <? 65536 then [cp]
  else let v := cp - 65536 in
       [55296 + N.shiftr v 10; 56320 + N.land v 1023].

Definition js (s : string) : str :=
  List.concat
    (map codeUnits
       (codePoints (map Ascii.N_of_ascii (String.list_ascii_of_string s)))).

End Utf.

Abbreviation js := Utf.js.

Module JSString.

(** LineTerminator of the ECMAScript grammar: LF, CR, LS, PS. *)
Definition isLineTerminator (c : N) : bool :=
  (c =? 10) || (c =? 13) || (c =? 8232) || (c =? 8233).

(** WhiteSpace of the ECMAScript grammar: TAB, VT, FF, ZWNBSP and the
    space separators (Unicode category Zs). *)
Definition isWhiteSpace (c : N) : bool :=
  (c =? 9) || (c =? 11) || (c =? 12) || (c =? 32) || (c =? 160)
  || (c =? 5760) || ((8192 <=? c) && (c <=? 8202))
  || (c =? 8239) || (c =? 8287) || (c =? 12288) || (c =? 65279).

(** The characters removed by [trim] and matched by the class escape [\s]:
    WhiteSpace together with LineTerminator. *)
Definition isSpace (c : N) : bool := isWhiteSpace c || isLineTerminator c.

Fixpoint trimStart (s : str) : str :=
  match s with
  | c :: s' => if isSpace c then trimStart s' else s
  | [] => []
  end.

Definition trimEnd (s : str) : str := rev (trimStart (rev s)).

(** [String.prototype.trim] *)
Definition trim (s : str) : str := trimEnd (trimStart s).

(** ToBoolean on a string: only the empty string is falsy. *)
Definition truthy (s : str) : bool :=
  match s with [] => false | _ :: _ => true end.

(** ToBoolean on [string | undefined] and [string | null]. *)
Definition truthyOpt (o : option str) : bool :=
  match o with Some s => truthy s | None => false end.

(** [a || b] where [a] is [string | undefined] and [b] a string. *)
Definition orElse (a : option str) (b : str) : str :=
  match a with
  | Some s => if truthy s then s else b
  | None => b
  end.

(** [a || undefined] *)
Definition orUndefined (a : str) : option str :=
  if truthy a then Some a else None.

(** Number::toString for the non-negative integers that occur here. *)
Definition numberToString (n : N) : str :=
  js (NilZero.string_of_uint (N.to_uint n)).

Definition eqb (a b : str) : bool := bool_decide (a = b).

End JSString.

Import JSString.

(** ** Regular expressions

    The fragment of the ECMAScript pattern language used by the source:
    single-character atoms, greedy [+] over such atoms, capture groups,
    sequencing and the two line assertions, with the [i] and [m] flags.
    The matcher is the backtracking, continuation-passing matcher of the
    language definition (sections "Pattern Semantics" and
    [RegExpBuiltinExec]). *)

Module RegExp.

Section Engine.

(** The Unicode simple upper-case mapping of the runtime for code units
    outside ASCII (the identity where the mapping has no single-unit
    result). It is a table of the engine, not of this program. *)
Variable unicodeUpper : N -> N.

Inductive CharSet :=
| Lit (c : N)               (* a pattern character, e.g. [#] or [\.] *)
| Dot                       (* [.] : anything but a line terminator *)
| Space                     (* [\s] *)
| NoneOf (cs : list N).     (* [[^...]] *)

Inductive Pattern :=
| Atom (a : CharSet)
| Plus (a : CharSet)        (* [a+], greedy *)
| Group (n : nat) (p : Pattern)
| Seq (p q : Pattern)
| Bol                       (* [^] *)
| Eol.                      (* [$] *)

Record Flags := { ignoreCase : bool; multiline : bool }.

(** Canonicalize (non-Unicode mode): upper-case the code unit, but never
    map a non-ASCII unit to an ASCII one. *)
Definition canonicalize (fl : Flags) (ch : N) : N :=
  if ignoreCase fl then
    if ch <? 128 then
      if (97 <=? ch) && (ch <=? 122) then ch - 32 else ch
    else
      let cu := unicodeUpper ch in
      if cu <? 128 then ch else cu
  else ch.

(** CharacterSetMatcher: does the set accept the code unit? *)
Definition accepts (fl : Flags) (a : CharSet) (ch : N) : bool :=
  match a with
  | Lit c => canonicalize fl c =? canonicalize fl ch
  | Dot => negb (isLineTerminator ch)
  | Space => isSpace ch
  | NoneOf cs =>
      negb (existsb (fun c => canonicalize fl c =? canonicalize fl ch) cs)
  end.

(** A match state: the input split at the current end index ([before] is
    kept reversed, nearest character first) and the captures so far. *)
Record State := {
  before : str;
  after : str;
  captures : list (option str)
}.

Definition Continuation := State -> option State.

(** The text between two states of one run of the matcher. *)
Definition consumed (x y : State) : str :=
  rev (take (length (before y) - length (before x)) (before y)).

(** RepeatMatcher with min = 0, max = infinity, greedy: try one more
    character first, and continue here only if that fails. *)
Fixpoint star (fl : Flags) (a : CharSet) (bef aft : str)
    (caps : list (option str)) (k : Continuation) : option State :=
  let here := {| before := bef; after := aft; captures := caps |} in
  match aft with
  | ch :: aft' =>
      if accepts fl a ch then
        match star fl a (ch :: bef) aft' caps k with
        | Some z => Some z
        | None => k here
        end
      else k here
  | [] => k here
  end.

Fixpoint m (fl : Flags) (p : Pattern) (x : State) (k : Continuation)
    : option State :=
  match p with
  | Atom a =>
      match after x with
      | ch :: aft' =>
          if accepts fl a ch
          then k {| before := ch :: before x; after := aft';
                    captures := captures x |}
          else None
      | [] => None
      end
  | Plus a =>
      match after x with
      | ch :: aft' =>
          if accepts fl a ch
          then star fl a (ch :: before x) aft' (captures x) k
          else None
      | [] => None
      end
  | Group n p =>
      m fl p x (fun y =>
        k {| before := before y; after := after y;
             captures := <[n := Some (consumed x y)]> (captures y) |})
  | Seq p q => m fl p x (fun y => m fl q y k)
  | Bol =>
      match before x with
      | [] => k x
      | ch :: _ => if multiline fl && isLineTerminator ch then k x else None
      end
  | Eol =>
      match after x with
      | [] => k x
      | ch :: _ => if multiline fl && isLineTerminator ch then k x else None
      end
  end.

Record RegExp := { source : Pattern; groups : nat; flags : Flags }.

(** The array returned by [exec]: element 0 is the matched text, element
    [n] the text of group [n] ([None] for [undefined]). *)
Definition MatchArray := list (option str).

Definition matchAt (re : RegExp) (bef aft : str) : option MatchArray :=
  let x := {| before := bef; after := aft;
              captures := replicate (S (groups re)) None |} in
  match m (flags re) (source re) x Some with
  | Some y => Some (<[0%nat := Some (consumed x y)]> (captures y))
  | None => None
  end.

(** RegExpBuiltinExec for a pattern without [g] and [y]: try every start
    index from 0 up to the length of the input. *)
Fixpoint execFrom (re : RegExp) (bef aft : str) : option MatchArray :=
  match matchAt re bef aft with
  | Some r => Some r
  | None =>
      match aft with
      | ch :: aft' => execFrom re (ch :: bef) aft'
      | [] => None
      end
  end.

(** [s.match(re)] for a non-global [re]. *)
Definition match_ (s : str) (re : RegExp) : option MatchArray :=
  execFrom re [] s.

(** [r[n]] on a match array, with the truthiness test of the source. *)
Definition group (r : MatchArray) (n : nat) : option str :=
  match r !! n with Some o => o | None => None end.

End Engine.

End RegExp.

(** ** The wire protocol and the editor host *)

Module Wire.

(** [interface ApiResponse] and its [data] member. [created_at] is a JSON
    number; the program only passes it through. *)
Record DraftData := {
  media_id : str;
  created_at : Z;
  title : str;
  content_preview : str
}.

Record ApiResponse := {
  success : bool;
  data : option DraftData;
  message : option str;
  error : option str
}.

(** [interface WeChatConfig] *)
Record WeChatConfig := {
  appid : str;
  appSecret : str;
  author : option str;
  digest : option str
}.

(** A JavaScript object with string values, as built by an object literal
    and later property assignments: properties in insertion order. *)
Definition Object := list (str * str).

Fixpoint setProp (o : Object) (key value : str) : Object :=
  match o with
  | [] => [(key, value)]
  | (k, v) :: o' =>
      if bool_decide (k = key) then (k, value) :: o'
      else (k, v) :: setProp o' key value
  end.

Fixpoint getProp (o : Object) (key : str) : option str :=
  match o with
  | [] => None
  | (k, v) :: o' => if bool_decide (k = key) then Some v else getProp o' key
  end.

Definition hasProp (o : Object) (key : str) : Prop := is_Some (getProp o key).

(** The argument of [fetch]: the [body] is the object handed to
    [JSON.stringify]. *)
Record Request := {
  url : str;
  method : str;
  headers : Object;
  body : Object
}.

End Wire.

Module Host.

(** A value caught by [catch]: an [Error] instance with its message, or
    anything else. *)
Inductive Thrown :=
| ErrorObject (message : str)
| OtherValue.

Inductive Completion (A : Type) :=
| Normal (a : A)
| Throw (e : Thrown).
Arguments Normal {A} a.
Arguments Throw {A} e.

(** What [fetch] resolves to: the status line and what the two body
    readers give ([json] rejects when the body is not JSON). *)
Record Response := {
  status : N;
  text : str;
  json : Completion Wire.ApiResponse
}.

(** [response.ok]: the status is in the range 200-299. *)
Definition ok (r : Response) : bool := (200 <=? status r) && (status r <=? 299).

(** [vscode.TextDocument], the members the extension reads. *)
Record TextDocument := {
  getText : str;
  fileName : str;
  isUntitled : bool;
  languageId : str
}.

(** The calls the extension makes on its host, in the order made. *)
Inductive Call :=
| ShowErrorMessage (message : str) (items : list str)
| ShowInformationMessage (message : str) (items : list str)
| ExecuteCommand (command : str) (args : list str)
| WithProgress (title : str)
| ProgressReport (increment : N) (message : str)
| ClipboardWriteText (value : str)
| ConsoleError (label : str) (e : Thrown)
| Fetch (request : Wire.Request)
| ResponseText
| ResponseJson.

(** What the host provides to one run of the command. *)
Record Env := {
  settings : gmap str str;          (* the markdown2weixin section *)
  activeTextEditor : option TextDocument;
  fetch : Wire.Request -> Completion Response;
  pick : str -> list str -> option str
    (* the item the user selects on a notification, if any *)
}.

(** Computations that call the host and may throw. *)
Definition Eff (A : Type) : Type := list Call * Completion A.

Definition ret {A} (a : A) : Eff A := ([], Normal a).

Definition bind {A B} (c : Eff A) (f : A -> Eff B) : Eff B :=
  match c with
  | (l, Normal a) => let '(l', r) := f a in (l ++ l', r)
  | (l, Throw e) => (l, Throw e)
  end.

Definition call (c : Call) : Eff unit := ([c], Normal tt).

Definition throw {A} (e : Thrown) : Eff A := ([], Throw e).

Definition await {A} (c : Completion A) : Eff A := ([], c).

Definition tryCatch {A} (c : Eff A) (handler : Thrown -> Eff A) : Eff A :=
  match c with
  | (l, Normal a) => (l, Normal a)
  | (l, Throw e) => let '(l', r) := handler e in (l ++ l', r)
  end.

Definition calls {A} (c : Eff A) : list Call := fst c.
Definition outcome {A} (c : Eff A) : Completion A := snd c.

End Host.

Import Host.

Notation "x <- c ;; k" := (bind c (fun x => k))
  (at level 100, c at next level, right associativity).
Notation "c ;; k" := (bind c (fun _ => k))
  (at level 100, right associativity).

(** ** The extension *)

Section Extension.

Variable unicodeUpper : N -> N.

Import RegExp.

(** [/^#\s+(.+)$/m] *)
Definition titleRe : RegExp :=
  {| source :=
       Seq Bol (Seq (Atom (Lit 35))
         (Seq (Plus Space) (Seq (Group 1 (Plus Dot)) Eol)));
     groups := 1;
     flags := {| ignoreCase := false; multiline := true |} |}.

(** [/([^/\\]+)\.md$/i] *)
Definition fileNameRe : RegExp :=
  {| source :=
       Seq (Group 1 (Plus (NoneOf [47; 92])))
         (Seq (Atom (Lit 46)) (Seq (Atom (Lit 109)) (Seq (Atom (Lit 100)) Eol)));
     groups := 1;
     flags := {| ignoreCase := true; multiline := false |} |}.

(** [r && r[1]]: the first group when the match exists and the group is a
    non-empty string. *)
Definition andGroup1 (r : option MatchArray) : option str :=
  match r with
  | Some a =>
      match group a 1 with
      | Some s => if truthy s then Some s else None
      | None => None
      end
  | None => None
  end.

Definition extractTitle (document : TextDocument) : option str :=
  let text := getText document in
  let titleMatch := match_ unicodeUpper text titleRe in
  match andGroup1 titleMatch with
  | Some t => Some (trim t)
  | None =>
      let fileName := fileName document in
      let fileNameMatch := match_ unicodeUpper fileName fileNameRe in
      match andGroup1 fileNameMatch with
      | Some f => Some f
      | None =>
          if isUntitled document then Some (js "未命名文档") else None
      end
  end.

(** [config.get<string>(key, '')] *)
Definition get (h : Env) (key : str) (defaultValue : str) : str :=
  default defaultValue (settings h !! key).

Definition getConfiguration (h : Env) : Eff (option Wire.WeChatConfig) :=
  let appid := trim (get h (js "appid") []) in
  let appSecret := trim (get h (js "appSecret") []) in
  let author := trim (get h (js "author") []) in
  let digest := trim (get h (js "digest") []) in
  if negb (truthy appid) || negb (truthy appSecret) then
    let message := js "请先在设置中配置微信公众号的 AppID 和 AppSecret" in
    let items := [js "打开设置"] in
    call (ShowErrorMessage message items) ;;
    (if bool_decide (pick h message items = Some (js "打开设置"))
     then call (ExecuteCommand (js "workbench.action.openSettings")
                  [js "markdown2weixin"])
     else ret tt) ;;
    ret None
  else
    ret (Some {| Wire.appid := appid;
                 Wire.appSecret := appSecret;
                 Wire.author := orUndefined author;
                 Wire.digest := orUndefined digest |}).

Definition apiUrl : str :=
  js "https://www.fastpen.online/api/draft/multi/import-markdown".

(** The object literal of [callWeChatApi] and the two conditional
    property assignments. *)
Definition buildRequestBody (markdown title : str)
    (config : Wire.WeChatConfig) : Wire.Object :=
  let requestBody :=
    [ (js "markdown", markdown);
      (js "title", title);
      (js "appid", Wire.appid config);
      (js "app_secret", Wire.appSecret config) ] in
  let requestBody :=
    match Wire.author config with
    | Some a =>
        if truthy a then Wire.setProp requestBody (js "author") a
        else requestBody
    | None => requestBody
    end in
  let requestBody :=
    match Wire.digest config with
    | Some d =>
        if truthy d then Wire.setProp requestBody (js "digest") d
        else requestBody
    | None => requestBody
    end in
  requestBody.

(** The arguments of the [fetch] call. *)
Definition buildRequest (markdown title : str)
    (config : Wire.WeChatConfig) : Wire.Request :=
  {| Wire.url := apiUrl;
     Wire.method := js "POST";
     Wire.headers := [(js "Content-Type", js "application/json")];
     Wire.body := buildRequestBody markdown title config |}.

Definition callWeChatApi (h : Env) (markdown title : str)
    (config : Wire.WeChatConfig) : Eff Wire.ApiResponse :=
  let request := buildRequest markdown title config in
  response <- (call (Fetch request) ;; await (fetch h request)) ;;
  if negb (ok response) then
    errorText <- (call ResponseText ;; ret (text response)) ;;
    throw (ErrorObject
             (js "HTTP " ++ numberToString (status response)
                ++ js ": " ++ errorText))
  else
    result <- (call ResponseJson ;; await (json response)) ;;
    if negb (Wire.success result) then
      throw (ErrorObject
               (orElse (Wire.error result)
                  (orElse (Wire.message result) (js "上传失败"))))
    else
      ret result.

(** The callback handed to [withProgress]. *)
Definition uploadTask (h : Env) (markdown title : str)
    (config : Wire.WeChatConfig) : Eff unit :=
  call (ProgressReport 0 (js "准备上传...")) ;;
  tryCatch
    (result <- callWeChatApi h markdown title config ;;
     call (ProgressReport 100 (js "上传完成")) ;;
     match Wire.success result, Wire.data result with
     | true, Some d =>
         let message :=
           js "✅ 上传成功！" ++ [10] ++ js "标题：" ++ Wire.title d
             ++ [10] ++ js "Media ID：" ++ Wire.media_id d in
         let items := [js "复制 Media ID"; js "关闭"] in
         call (ShowInformationMessage message items) ;;
         if bool_decide (pick h message items = Some (js "复制 Media ID"))
         then
           call (ClipboardWriteText (Wire.media_id d)) ;;
           call (ShowInformationMessage (js "Media ID 已复制到剪贴板") [])
         else ret tt
     | _, _ =>
         call (ShowInformationMessage
                 (orElse (Wire.message result) (js "上传成功！")) [])
     end)
    (fun error => throw error).

Definition uploadToWeChat (h : Env) : Eff unit :=
  tryCatch
    (config <- getConfiguration h ;;
     match config with
     | None => ret tt
     | Some config =>
         match activeTextEditor h with
         | None => call (ShowErrorMessage (js "请先打开一个 Markdown 文件") [])
         | Some document =>
             if negb (eqb (languageId document) (js "markdown")) then
               call (ShowErrorMessage (js "当前文件不是 Markdown 文件") [])
             else
               let markdown := getText document in
               if negb (truthy (trim markdown)) then
                 call (ShowErrorMessage (js "文档内容为空，无法上传") [])
               else
                 let title := extractTitle document in
                 match title with
                 | Some title =>
                     if truthy title then
                       call (WithProgress (js "正在上传到微信公众号...")) ;;
                       uploadTask h markdown title config
                     else
                       call (ShowErrorMessage
                         (js "无法提取文章标题，请确保文档包含标题或有效文件名") [])
                 | None =>
                     call (ShowErrorMessage
                       (js "无法提取文章标题，请确保文档包含标题或有效文件名") [])
                 end
         end
     end)
    (fun error =>
       let errorMessage :=
         match error with
         | ErrorObject message => message
         | OtherValue => js "未知错误"
         end in
       call (ShowErrorMessage (js "❌ 上传失败：" ++ errorMessage) []) ;;
       call (ConsoleError (js "上传错误：") error)).

End Extension.

(** ** The vocabulary of the specification

    The properties below are stated over decompositions of the input,
    independently of the matcher. *)

Module Spec.

(** A string with no white space or line terminator at either end. *)
Definition Trimmed (t : str) : Prop :=
  (forall c t', t = c :: t' -> isSpace c = false) /\
  (forall c t', t = t' ++ [c] -> isSpace c = false).

(** [pre] ends where a line starts: at the start of the input or just
    after a line terminator. *)
Definition LineStart (pre : str) : Prop :=
  pre = [] \/ exists pre' c, pre = pre' ++ [c] /\ isLineTerminator c = true.

(** [post] starts where a line ends: at the end of the input or at a line
    terminator. *)
Definition LineEnd (post : str) : Prop :=
  post = [] \/ exists c post', post = c :: post' /\ isLineTerminator c = true.

(** At the line start after [pre] the text reads: the [#] marker, the
    white space [ws] (one or more characters of the class [\s]), the
    heading text [cap] (one or more characters, none a line terminator),
    up to the end of a line. *)
Record HeadingAt (s pre ws cap post : str) : Prop := {
  heading_split : s = pre ++ 35 :: ws ++ cap ++ post;
  heading_start : LineStart pre;
  heading_ws : ws <> [] /\ Forall (fun c => isSpace c = true) ws;
  heading_cap : cap <> [] /\ Forall (fun c => isLineTerminator c = false) cap;
  heading_end : LineEnd post
}.

(** The same read line by line: the white space after the marker stays
    on the marker's line, so that marker, white space and heading text
    form one line of the text. *)
Record LineHeadingAt (s pre ws cap post : str) : Prop := {
  line_heading_split : s = pre ++ 35 :: ws ++ cap ++ post;
  line_heading_start : LineStart pre;
  line_heading_ws :
    ws <> [] /\
    Forall (fun c => isSpace c = true /\ isLineTerminator c = false) ws;
  line_heading_cap :
    cap <> [] /\ Forall (fun c => isLineTerminator c = false) cap;
  line_heading_end : LineEnd post
}.

Definition HasHeading (s : str) : Prop :=
  exists pre ws cap post, HeadingAt s pre ws cap post.

(** [cap] is the heading text of the first heading of [s]: no heading
    starts earlier, and at that start the white-space run is the longest
    one that still leaves a heading text. *)
Definition FirstHeading (s cap : str) : Prop :=
  exists pre ws post,
    HeadingAt s pre ws cap post /\
    forall pre' ws' cap' post',
      HeadingAt s pre' ws' cap' post' ->
      (length pre <= length pre')%nat /\
      (length pre' = length pre -> (length ws' <= length ws)%nat).

(** Path separators of the file-name pattern. *)
Definition isSeparator (c : N) : bool := (c =? 47) || (c =? 92).

(** [.md] in any letter case. *)
Definition MdExtension (ext : str) : Prop :=
  exists e1 e2, ext = [46; e1; e2] /\
    (e1 = 109 \/ e1 = 77) /\ (e2 = 100 \/ e2 = 68).

(** [path] is [dir ++ base ++ ext] with [dir] empty or ending in a
    separator, [base] non-empty and free of separators, [ext] the [.md]
    extension. *)
Record MdPath (path dir base ext : str) : Prop := {
  md_split : path = dir ++ base ++ ext;
  md_dir : dir = [] \/ exists dir' c, dir = dir' ++ [c] /\ isSeparator c = true;
  md_base : base <> [] /\ Forall (fun c => isSeparator c = false) base;
  md_ext : MdExtension ext
}.

Definition MdBasename (path base : str) : Prop :=
  exists dir ext, MdPath path dir base ext.

Definition HasMdBasename (path : str) : Prop :=
  exists base, MdBasename path base.

(** The characters of a decimal numeral, most significant digit first. *)
Fixpoint decimalDigits (d : Decimal.uint) : str :=
  match d with
  | Decimal.Nil => []
  | Decimal.D0 d => 48 :: decimalDigits d
  | Decimal.D1 d => 49 :: decimalDigits d
  | Decimal.D2 d => 50 :: decimalDigits d
  | Decimal.D3 d => 51 :: decimalDigits d
  | Decimal.D4 d => 52 :: decimalDigits d
  | Decimal.D5 d => 53 :: decimalDigits d
  | Decimal.D6 d => 54 :: decimalDigits d
  | Decimal.D7 d => 55 :: decimalDigits d
  | Decimal.D8 d => 56 :: decimalDigits d
  | Decimal.D9 d => 57 :: decimalDigits d
  end.

(** The presentation of a run shows a failure: an error notification. *)
Definition ShowsError (l : list Call) : Prop :=
  exists message items, In (ShowErrorMessage message items) l.

(** The presentation of a run shows an information notification. *)
Definition ShowsInformation (l : list Call) (message : str) : Prop :=
  exists items, In (ShowInformationMessage message items) l.

(** The checks the command makes before it contacts the server all pass:
    the configuration is valid, an editor is open on a Markdown document
    whose text is not blank, and a non-empty title was extracted. *)
Definition ReadyToUpload (unicodeUpper : N -> N) (h : Env)
    (document : TextDocument) (config : Wire.WeChatConfig) (title : str)
    : Prop :=
  outcome (getConfiguration h) = Normal (Some config) /\
  activeTextEditor h = Some document /\
  languageId document = js "markdown" /\
  trim (getText document) <> [] /\
  extractTitle unicodeUpper document = Some title /\
  title <> [].

(** The text shown for a caught value. *)
Definition errorText (e : Thrown) : str :=
  match e with
  | ErrorObject message => message
  | OtherValue => js "未知错误"
  end.

End Spec.

Import Spec.

(** ** Sample hosts

    Concrete settings, documents and responses on which the statements
    below are instantiated. *)

Module Sample.

(** A case table that maps every code unit outside ASCII to itself. *)
Definition upper : N -> N := fun c => c.

Definition settings : gmap str str :=
  <[js "appid" := js " wx123 "]> (<[js "appSecret" := js "secret"]> ∅).

Definition config : Wire.WeChatConfig :=
  {| Wire.appid := js "wx123"; Wire.appSecret := js "secret";
     Wire.author := None; Wire.digest := None |}.

Definition document (text path : string) : TextDocument :=
  {| getText := js text; fileName := js path; isUntitled := false;
     languageId := js "markdown" |}.

Definition draft : Wire.DraftData :=
  {| Wire.media_id := js "abc123"; Wire.created_at := 1700000000%Z;
     Wire.title := js "T"; Wire.content_preview := js "P" |}.

Definition reply (success : bool) (data : option Wire.DraftData)
    (message error : option str) : Wire.ApiResponse :=
  {| Wire.success := success; Wire.data := data;
     Wire.message := message; Wire.error := error |}.

Definition response (status : N) (text : string)
    (json : Completion Wire.ApiResponse) : Response :=
  {| status := status; text := js text; json := json |}.

Definition env (settings : gmap str str) (editor : option TextDocument)
    (answer : Completion Response) (choice : option str) : Env :=
  {| Host.settings := settings; activeTextEditor := editor;
     fetch := fun _ => answer; pick := fun _ _ => choice |}.

End Sample.

(** ** Strings: [trim] *)

Section TrimFacts.

Lemma trimStart_spaces (l s : str) :
  Forall (fun c => isSpace c = true) l -> trimStart (l ++ s) = trimStart s.
Proof.
  induction 1 as [|c l Hc _ IH]; simpl; [reflexivity|].
  now rewrite Hc.
Qed.

Lemma trimStart_split (s : str) :
  exists l, s = l ++ trimStart s /\ Forall (fun c => isSpace c = true) l.
Proof.
  induction s as [|c s [l [Hs Hl]]]; simpl.
  - exists []. split; [reflexivity | constructor].
  - destruct (isSpace c) eqn:Hc.
    + exists (c :: l). split; [simpl; congruence | now constructor].
    + exists []. split; [reflexivity | constructor].
Qed.

Lemma trimStart_head (s : str) (c : N) (t : str) :
  trimStart s = c :: t -> isSpace c = false.
Proof.
  induction s as [|d s IH]; simpl; [discriminate|].
  destruct (isSpace d) eqn:Hd; [exact IH|].
  intros [= -> _]. exact Hd.
Qed.

Lemma trimStart_fixed (c : N) (t : str) :
  isSpace c = false -> trimStart (c :: t) = c :: t.
Proof. intros H. simpl. now rewrite H. Qed.

(** Dropping leading space from [l ++ [c]] keeps the final [c] when [c]
    is not space. *)
Lemma trimStart_snoc (l : str) (c : N) :
  isSpace c = false -> exists w, trimStart (l ++ [c]) = w ++ [c].
Proof.
  intros Hc. induction l as [|d l [w Hw]]; simpl.
  - rewrite Hc. now exists [].
  - destruct (isSpace d).
    + now exists w.
    + now exists (d :: l).
Qed.

Lemma trimEnd_split (s : str) :
  exists r, s = trimEnd s ++ r /\ Forall (fun c => isSpace c = true) r.
Proof.
  unfold trimEnd. destruct (trimStart_split (rev s)) as [l [Hs Hl]].
  exists (rev l). split.
  - rewrite <- rev_app_distr, <- Hs. now rewrite rev_involutive.
  - now apply List.Forall_rev.
Qed.

Lemma trimEnd_last (s t : str) (c : N) :
  trimEnd s = t ++ [c] -> isSpace c = false.
Proof.
  unfold trimEnd. intros H.
  apply (f_equal (@rev N)) in H.
  rewrite rev_involutive, rev_app_distr in H. simpl in H.
  now apply trimStart_head in H.
Qed.

Lemma trimEnd_head (c : N) (t : str) :
  isSpace c = false -> exists t', trimEnd (c :: t) = c :: t'.
Proof.
  intros Hc. unfold trimEnd. simpl.
  destruct (trimStart_snoc (rev t) c Hc) as [w Hw].
  exists (rev w). rewrite Hw, rev_app_distr. reflexivity.
Qed.

(** [trim] removes a run of space at each end, and nothing else. *)
Lemma trim_split (s : str) :
  exists l r, s = l ++ trim s ++ r /\
    Forall (fun c => isSpace c = true) l /\
    Forall (fun c => isSpace c = true) r.
Proof.
  unfold trim. destruct (trimStart_split s) as [l [Hs Hl]].
  destruct (trimEnd_split (trimStart s)) as [r [Ht Hr]].
  exists l, r. split; [|split]; try assumption.
  rewrite <- Ht. exact Hs.
Qed.

Lemma trim_Trimmed (s : str) : Trimmed (trim s).
Proof.
  unfold trim. split.
  - intros c t' H. destruct (trimStart s) as [|d u] eqn:Hu.
    + discriminate H.
    + pose proof (trimStart_head _ _ _ Hu) as Hd.
      destruct (trimEnd_head d u Hd) as [t'' Ht''].
      rewrite Ht'' in H. now injection H as <- _.
  - intros c t' H. now apply trimEnd_last in H.
Qed.

Lemma trim_of_Trimmed (t : str) : Trimmed t -> trim t = t.
Proof.
  intros [Hh Hl]. unfold trim.
  assert (Hs : trimStart t = t).
  { destruct t as [|c t']; [reflexivity|].
    apply trimStart_fixed. now apply (Hh c t'). }
  rewrite Hs. unfold trimEnd.
  destruct (rev t) as [|c u] eqn:Hr.
  - apply (f_equal (@rev N)) in Hr. rewrite rev_involutive in Hr.
    now subst t.
  - assert (Ht : t = rev u ++ [c]).
    { apply (f_equal (@rev N)) in Hr. now rewrite rev_involutive in Hr. }
    rewrite trimStart_fixed by now apply (Hl c (rev u)).
    now rewrite Ht.
Qed.

Lemma trim_idempotent (s : str) : trim (trim s) = trim s.
Proof. apply trim_of_Trimmed, trim_Trimmed. Qed.

Lemma trim_spaces (s : str) :
  Forall (fun c => isSpace c = true) s -> trim s = [].
Proof.
  intros H. unfold trim.
  rewrite <- (app_nil_r s), trimStart_spaces by assumption.
  reflexivity.
Qed.

Lemma truthy_false (s : str) : truthy s = false <-> s = [].
Proof. destruct s; simpl; split; congruence. Qed.

Lemma truthy_true (s : str) : truthy s = true <-> s <> [].
Proof. destruct s; simpl; split; congruence. Qed.

End TrimFacts.

(** ** The matcher: greedy repetition and leftmost search *)

Section EngineFacts.

Variable unicodeUpper : N -> N.

Import RegExp.

Local Abbreviation accepted fl a :=
  (Forall (fun c => accepts unicodeUpper fl a c = true)).

Lemma consumed_app (x y : State) (t : str) :
  before y = rev t ++ before x -> consumed x y = t.
Proof.
  intros H. unfold consumed. rewrite H.
  rewrite length_app, length_rev.
  replace (length t + length (before x) - length (before x))%nat
    with (length t + 0)%nat by lia.
  rewrite <- (length_rev t) at 1.
  rewrite take_app_add, take_0, app_nil_r.
  apply rev_involutive.
Qed.

Lemma m_Seq fl p q x k :
  m unicodeUpper fl (Seq p q) x k
  = m unicodeUpper fl p x (fun y => m unicodeUpper fl q y k).
Proof. reflexivity. Qed.

Lemma m_Bol fl x k :
  m unicodeUpper fl Bol x k
  = if match before x with
       | [] => true
       | ch :: _ => multiline fl && isLineTerminator ch
       end
    then k x else None.
Proof. simpl. now destruct (before x). Qed.

(** When [a*] fails, the continuation fails after every accepted run. *)
Lemma star_None fl a caps k : forall aft bef,
  star unicodeUpper fl a bef aft caps k = None ->
  forall run rest, aft = run ++ rest -> accepted fl a run ->
    k {| before := rev run ++ bef; after := rest; captures := caps |} = None.
Proof.
  induction aft as [|ch aft IH]; intros bef H run rest Hsplit Hrun.
  - symmetry in Hsplit. apply app_eq_nil in Hsplit as [-> ->]. exact H.
  - simpl in H.
    destruct run as [|c run]; simpl in Hsplit.
    + subst rest. simpl.
      destruct (accepts unicodeUpper fl a ch); [|exact H].
      destruct (star unicodeUpper fl a (ch :: bef) aft caps k);
        [discriminate | exact H].
    + injection Hsplit as <- Haft.
      inversion Hrun as [|? ? Hc Hrun']; subst.
      rewrite Hc in H.
      destruct (star unicodeUpper fl a (ch :: bef) (run ++ rest) caps k)
        eqn:Hin; [discriminate|].
      simpl. rewrite <- app_assoc. simpl.
      now apply (IH (ch :: bef) Hin run rest).
Qed.

(** When [a*] succeeds, it does so through the continuation after the
    longest accepted run for which the continuation succeeds. *)
Lemma star_Some fl a caps k : forall aft bef z,
  star unicodeUpper fl a bef aft caps k = Some z ->
  exists run rest,
    aft = run ++ rest /\ accepted fl a run /\
    k {| before := rev run ++ bef; after := rest; captures := caps |} = Some z /\
    forall run' rest', aft = run' ++ rest' -> accepted fl a run' ->
      (length run < length run')%nat ->
      k {| before := rev run' ++ bef; after := rest'; captures := caps |} = None.
Proof.
  induction aft as [|ch aft IH]; intros bef z H.
  - exists [], []. simpl in *. repeat split; auto.
    intros run' rest' Hsplit _ Hlen.
    symmetry in Hsplit. apply app_eq_nil in Hsplit as [-> _].
    simpl in Hlen. lia.
  - simpl in H. destruct (accepts unicodeUpper fl a ch) eqn:Hch.
    + destruct (star unicodeUpper fl a (ch :: bef) aft caps k) eqn:Hin.
      * injection H as ->.
        destruct (IH _ _ Hin) as (run & rest & Hs & Hr & Hk & Hmax).
        exists (ch :: run), rest. simpl. rewrite <- app_assoc. simpl.
        repeat split; [congruence | now constructor | exact Hk |].
        intros run' rest' Hsplit Hrun' Hlen.
        destruct run' as [|c run']; [simpl in Hlen; lia|].
        simpl in Hsplit. injection Hsplit as <- Haft.
        inversion Hrun'; subst. simpl. rewrite <- app_assoc. simpl.
        apply Hmax; auto. simpl in Hlen. lia.
      * exists [], (ch :: aft). simpl. repeat split; auto.
        intros run' rest' Hsplit Hrun' Hlen.
        destruct run' as [|c run']; [simpl in Hlen; lia|].
        simpl in Hsplit. injection Hsplit as <- Haft.
        inversion Hrun'; subst. simpl. rewrite <- app_assoc. simpl.
        now apply (star_None _ _ _ _ _ _ Hin run' rest').
    + exists [], (ch :: aft). simpl. repeat split; auto.
      intros run' rest' Hsplit Hrun' Hlen.
      destruct run' as [|c run']; [simpl in Hlen; lia|].
      simpl in Hsplit. injection Hsplit as <- Haft.
      inversion Hrun'; subst. congruence.
Qed.

(** The search fails only if the pattern fails at every start index. *)
Lemma execFrom_None re : forall aft bef,
  execFrom unicodeUpper re bef aft = None ->
  forall skipped rest, aft = skipped ++ rest ->
    matchAt unicodeUpper re (rev skipped ++ bef) rest = None.
Proof.
  induction aft as [|ch aft IH]; intros bef H skipped rest Hsplit.
  - symmetry in Hsplit. apply app_eq_nil in Hsplit as [-> ->].
    simpl in *. now destruct (matchAt unicodeUpper re bef []).
  - simpl in H.
    destruct (matchAt unicodeUpper re bef (ch :: aft)) eqn:Hm;
      [discriminate|].
    destruct skipped as [|c skipped]; simpl in Hsplit.
    + now subst rest.
    + injection Hsplit as <- Haft. simpl. rewrite <- app_assoc. simpl.
      now apply IH.
Qed.

(** The search returns the match at the least start index that has one. *)
Lemma execFrom_Some re : forall aft bef r,
  execFrom unicodeUpper re bef aft = Some r ->
  exists skipped rest,
    aft = skipped ++ rest /\
    matchAt unicodeUpper re (rev skipped ++ bef) rest = Some r /\
    forall skipped' rest', aft = skipped' ++ rest' ->
      (length skipped' < length skipped)%nat ->
      matchAt unicodeUpper re (rev skipped' ++ bef) rest' = None.
Proof.
  induction aft as [|ch aft IH]; intros bef r H.
  - exists [], []. simpl in *.
    destruct (matchAt unicodeUpper re bef []); [|discriminate].
    repeat split; auto. intros ? ? _ Hlen. simpl in Hlen. lia.
  - simpl in H.
    destruct (matchAt unicodeUpper re bef (ch :: aft)) eqn:Hm.
    + injection H as ->. exists [], (ch :: aft). simpl.
      repeat split; auto. intros ? ? _ Hlen. simpl in Hlen. lia.
    + destruct (IH _ _ H) as (skipped & rest & Hs & Hr & Hmin).
      exists (ch :: skipped), rest. simpl. rewrite <- app_assoc. simpl.
      repeat split; [congruence | exact Hr |].
      intros skipped' rest' Hsplit Hlen.
      destruct skipped' as [|c skipped']; simpl in Hsplit.
      * now subst rest'.
      * injection Hsplit as <- Haft. simpl. rewrite <- app_assoc. simpl.
        apply Hmin; auto. simpl in Hlen. lia.
Qed.

End EngineFacts.

(** ** Lists: the longest prefix avoiding a class of characters *)

Section Spans.

Variable stop : N -> bool.

(** If a string is split twice into a run free of [stop] characters and a
    rest that is empty or begins with a [stop] character, the two splits
    coincide. *)
Lemma span_unique (run1 rest1 run2 rest2 : str) :
  run1 ++ rest1 = run2 ++ rest2 ->
  Forall (fun c => stop c = false) run1 ->
  (rest1 = [] \/ exists c t, rest1 = c :: t /\ stop c = true) ->
  Forall (fun c => stop c = false) run2 ->
  (rest2 = [] \/ exists c t, rest2 = c :: t /\ stop c = true) ->
  run1 = run2.
Proof.
  revert run2. induction run1 as [|c run1 IH]; intros run2 Heq H1 E1 H2 E2.
  - destruct run2 as [|d run2]; [reflexivity|]. exfalso.
    simpl in Heq. inversion H2 as [|? ? Hd _]; subst.
    destruct E1 as [E|(e & post & E & He)]; [discriminate E|].
    injection E as E _. congruence.
  - inversion H1 as [|? ? Hc H1']; subst.
    destruct run2 as [|d run2].
    + exfalso. simpl in Heq. subst rest2.
      destruct E2 as [E|(e & post & E & He)]; [discriminate E|].
      injection E as E _. congruence.
    + simpl in Heq. injection Heq as -> Heq.
      inversion H2; subst. f_equal. now apply IH.
Qed.

End Spans.

(** ** The heading pattern [/^#\s+(.+)$/m] *)

Section TitlePattern.

Variable unicodeUpper : N -> N.

Import RegExp.

Local Abbreviation fl := {| ignoreCase := false; multiline := true |}.
Local Abbreviation headingText := (Seq (Group 1 (Plus Dot)) Eol).
Local Abbreviation headingBody :=
  (Seq (Atom (Lit 35)) (Seq (Plus Space) headingText)).
Local Abbreviation spaces := (Forall (fun c => isSpace c = true)).
Local Abbreviation noTerminator :=
  (Forall (fun c => isLineTerminator c = false)).

(** Every string splits into its longest terminator-free prefix and a
    rest that is at a line end. *)
Lemma line_split (l : str) :
  exists run rest, l = run ++ rest /\ noTerminator run /\ LineEnd rest.
Proof.
  induction l as [|c l (run & rest & Hl & Hrun & Hend)].
  - exists [], []. repeat split; [constructor | now left].
  - destruct (isLineTerminator c) eqn:Hc.
    + exists [], (c :: l). repeat split; [constructor|].
      right. now exists c, l.
    + exists (c :: run), rest. repeat split;
        [simpl; congruence | now constructor | exact Hend].
Qed.

(** Two such splits of one string coincide. *)
Lemma line_split_unique (run1 rest1 run2 rest2 : str) :
  run1 ++ rest1 = run2 ++ rest2 ->
  noTerminator run1 -> LineEnd rest1 ->
  noTerminator run2 -> LineEnd rest2 ->
  run1 = run2.
Proof. apply (span_unique isLineTerminator). Qed.

Lemma headingText_Some (x z : State) :
  m unicodeUpper fl headingText x Some = Some z ->
  exists cap post,
    after x = cap ++ post /\ cap <> [] /\ noTerminator cap /\ LineEnd post /\
    z = {| before := rev cap ++ before x; after := post;
           captures := <[1%nat := Some cap]> (captures x) |}.
Proof.
  cbn [m]. destruct (after x) as [|ch aft'] eqn:Hx; [discriminate|].
  unfold accepts at 1.
  destruct (isLineTerminator ch) eqn:Hch; [discriminate|]. simpl negb. cbv iota.
  intros H. apply star_Some in H as (run & rest & Haft & Hrun & Hk & _).
  cbn [before after captures] in Hk.
  assert (Hcons : consumed x {| before := rev run ++ ch :: before x;
                               after := rest; captures := captures x |}
                  = ch :: run).
  { apply consumed_app. simpl. now rewrite <- app_assoc. }
  rewrite Hcons in Hk.
  assert (Hz : z = {| before := rev (ch :: run) ++ before x; after := rest;
                      captures := <[1%nat := Some (ch :: run)]> (captures x) |}
               /\ LineEnd rest).
  { simpl rev. rewrite <- app_assoc. simpl.
    destruct rest as [|d rest'].
    - injection Hk as <-. split; [reflexivity | now left].
    - simpl in Hk. destruct (isLineTerminator d) eqn:Hd; [|discriminate].
      injection Hk as <-. split; [reflexivity|]. right. now exists d, rest'. }
  destruct Hz as [-> Hend].
  exists (ch :: run), rest. repeat split; auto.
  - simpl. congruence.
  - constructor; [exact Hch|].
    eapply Forall_impl; [exact Hrun|]. simpl. intros c Hc.
    now destruct (isLineTerminator c).
Qed.

Lemma headingText_total (x : State) (d : N) (rest : str) :
  after x = d :: rest -> isLineTerminator d = false ->
  m unicodeUpper fl headingText x Some <> None.
Proof.
  intros Hx Hd. cbn [m]. rewrite Hx. unfold accepts at 1. rewrite Hd.
  simpl negb. cbv iota. intros H.
  destruct (line_split rest) as (run & post & Hrest & Hrun & Hend).
  eapply star_None with (run := run) (rest := post) in H; auto.
  - cbn [before after captures] in H.
    destruct Hend as [->|(e & post' & -> & He)]; simpl in H;
      [discriminate|]. rewrite He in H. discriminate.
  - eapply Forall_impl; [exact Hrun|]. simpl. intros c Hc. now rewrite Hc.
Qed.

Lemma headingBody_Some (x z : State) :
  m unicodeUpper fl headingBody x Some = Some z ->
  exists ws cap post,
    after x = 35 :: ws ++ cap ++ post /\
    (ws <> [] /\ spaces ws) /\ (cap <> [] /\ noTerminator cap) /\
    LineEnd post /\
    z = {| before := rev (35 :: ws ++ cap) ++ before x; after := post;
           captures := <[1%nat := Some cap]> (captures x) |} /\
    forall ws' cap' post',
      after x = 35 :: ws' ++ cap' ++ post' ->
      spaces ws' -> cap' <> [] -> noTerminator cap' ->
      (length ws' <= length ws)%nat.
Proof.
  set (ht := headingText). cbn [m before after captures].
  destruct (after x) as [|h aft1] eqn:Hx; [discriminate|].
  unfold accepts at 1. unfold canonicalize. cbn [ignoreCase].
  destruct (35 =? h) eqn:Hh; [|discriminate].
  apply N.eqb_eq in Hh. subst h.
  destruct aft1 as [|c aft2]; [discriminate|].
  unfold accepts at 1. destruct (isSpace c) eqn:Hc; [|discriminate].
  intros H. apply star_Some in H as (run & rest & Haft & Hrun & Hk & Hmax).
  subst ht. apply headingText_Some in Hk
    as (cap & post & Hrest & Hcap & Hnt & Hend & ->).
  cbn [before after captures] in *.
  exists (c :: run), cap, post. repeat split; auto.
  - simpl. now rewrite Haft, Hrest.
  - simpl. rewrite !rev_app_distr. simpl. now rewrite <- !app_assoc.
  - intros ws' cap' post' Hsplit Hws' Hcap' Hnt'.
    destruct (Nat.le_gt_cases (length ws') (length (c :: run)))
      as [|Hgt]; [assumption|exfalso].
    destruct ws' as [|c' run']; [simpl in Hgt; lia|].
    simpl in Hsplit. injection Hsplit as <- Haft2.
    inversion Hws' as [|? ? _ Hrun']; subst.
    specialize (Hmax run' (cap' ++ post') Haft2).
    destruct cap' as [|d cap'']; [congruence|].
    inversion Hnt' as [|? ? Hd _]; subst.
    eapply (headingText_total _ d (cap'' ++ post')); [|exact Hd|].
    2: { apply Hmax; [exact Hrun' | simpl in Hgt; lia]. }
    reflexivity.
Qed.

Lemma headingBody_None (x : State) :
  m unicodeUpper fl headingBody x Some = None ->
  forall ws cap post,
    after x = 35 :: ws ++ cap ++ post ->
    ws <> [] -> spaces ws -> cap <> [] -> noTerminator cap -> False.
Proof.
  set (ht := headingText). cbn [m before after captures].
  intros H ws cap post Hx Hne Hws Hcap Hnt. rewrite Hx in H.
  unfold accepts at 1 in H. unfold canonicalize in H.
  cbn [ignoreCase] in H. rewrite N.eqb_refl in H.
  destruct ws as [|c run]; [congruence|]. simpl app in H. cbv iota in H.
  inversion Hws as [|? ? Hc Hrun]; subst.
  unfold accepts at 1 in H. rewrite Hc in H.
  eapply star_None with (run := run) (rest := cap ++ post) in H; auto.
  destruct cap as [|d cap']; [congruence|].
  inversion Hnt as [|? ? Hd _]; subst.
  eapply (headingText_total _ d (cap' ++ post)); [|exact Hd|exact H].
  reflexivity.
Qed.

End TitlePattern.

Section TitleMatch.

Variable unicodeUpper : N -> N.

Import RegExp.

Local Abbreviation fl := {| ignoreCase := false; multiline := true |}.

Lemma bol_LineStart (bef : str) :
  match bef with
  | [] => true
  | ch :: _ => multiline fl && isLineTerminator ch
  end = true <-> LineStart (rev bef).
Proof.
  destruct bef as [|ch bef]; simpl.
  - split; [now left | reflexivity].
  - split.
    + intros H. right. now exists (rev bef), ch.
    + intros [H|(pre' & c & H & Hc)].
      * now apply app_eq_nil in H as [_ H].
      * apply app_inj_tail in H as [_ ->]. exact Hc.
Qed.

Lemma titleRe_matchAt_Some (bef aft : str) (r : MatchArray) :
  matchAt unicodeUpper titleRe bef aft = Some r ->
  exists ws cap post,
    HeadingAt (rev bef ++ aft) (rev bef) ws cap post /\
    r = [Some (35 :: ws ++ cap); Some cap] /\
    forall ws' cap' post',
      HeadingAt (rev bef ++ aft) (rev bef) ws' cap' post' ->
      (length ws' <= length ws)%nat.
Proof.
  unfold matchAt, titleRe. cbn [source flags groups].
  rewrite m_Seq, m_Bol. cbn [before].
  pose proof (bol_LineStart bef) as Hbol.
  destruct (match bef with
            | [] => true | ch :: _ => multiline fl && isLineTerminator ch
            end); [|discriminate].
  assert (Hstart : LineStart (rev bef)) by now apply Hbol.
  set (x := {| before := bef; after := aft; captures := replicate 2 None |}).
  destruct (m unicodeUpper fl _ x Some) as [y|] eqn:Hy; [|discriminate].
  intros [= <-].
  apply headingBody_Some in Hy
    as (ws & cap & post & Haft & Hws & Hcap & Hend & -> & Hmax).
  subst x. cbn [after before captures] in *. subst aft.
  exists ws, cap, post. split; [|split].
  - now constructor.
  - rewrite (consumed_app _ _ (35 :: ws ++ cap)) by reflexivity.
    reflexivity.
  - intros ws' cap' post' [Hsplit _ [_ Hws'] [Hcap' Hnt'] _].
    apply app_inv_head in Hsplit.
    now apply (Hmax ws' cap' post').
Qed.

Lemma titleRe_matchAt_None (bef aft : str) :
  matchAt unicodeUpper titleRe bef aft = None ->
  forall ws cap post, ~ HeadingAt (rev bef ++ aft) (rev bef) ws cap post.
Proof.
  unfold matchAt, titleRe. cbn [source flags groups].
  rewrite m_Seq, m_Bol. cbn [before].
  intros H ws cap post [Hsplit Hstart [Hne Hws] [Hcap Hnt] _].
  apply app_inv_head in Hsplit.
  apply bol_LineStart in Hstart. rewrite Hstart in H.
  set (x := {| before := bef; after := aft; captures := replicate 2 None |})
    in H.
  destruct (m unicodeUpper fl _ x Some) as [y|] eqn:Hy; [discriminate|].
  now apply (headingBody_None unicodeUpper x Hy ws cap post).
Qed.

(** The first group of [text.match(titleRe)] is the heading text of the
    first heading, and the match is null exactly when the text has no
    heading. *)
Lemma title_match_spec (s : str) :
  (exists cap, FirstHeading s cap /\
     andGroup1 (match_ unicodeUpper s titleRe) = Some cap) \/
  (~ HasHeading s /\ andGroup1 (match_ unicodeUpper s titleRe) = None).
Proof.
  unfold match_.
  destruct (execFrom unicodeUpper titleRe [] s) as [r|] eqn:Hexec.
  - left.
    apply execFrom_Some in Hexec as (skipped & rest & Hs & Hm & Hmin).
    rewrite app_nil_r in Hm.
    pose proof (titleRe_matchAt_Some _ _ _ Hm) as (ws & cap & post & Hh & -> & Hmax).
    rewrite rev_involutive, <- Hs in Hh, Hmax.
    exists cap. split.
    + exists skipped, ws, post. split; [exact Hh|].
      intros pre' ws' cap' post' Hh'.
      assert (Hle : (length skipped <= length pre')%nat).
      { destruct (Nat.le_gt_cases (length skipped) (length pre'))
          as [|Hlt]; [assumption|exfalso].
        pose proof (heading_split _ _ _ _ _ Hh') as Hs'.
        specialize (Hmin pre' _ Hs' Hlt). rewrite app_nil_r in Hmin.
        pose proof (titleRe_matchAt_None _ _ Hmin) as Hno.
        rewrite rev_involutive, <- Hs' in Hno. exact (Hno _ _ _ Hh'). }
      split; [exact Hle|]. intros Hlen.
      assert (pre' = skipped) as ->.
      { pose proof (heading_split _ _ _ _ _ Hh') as Hs'.
        rewrite Hs in Hs'. now apply app_inj_1 in Hs' as [-> _]. }
      now apply (Hmax ws' cap' post').
    + simpl. destruct Hh as [_ _ _ [Hcap _] _].
      destruct cap; [congruence | reflexivity].
  - right. split; [|reflexivity].
    intros (pre & ws & cap & post & Hh).
    pose proof (heading_split _ _ _ _ _ Hh) as Hs.
    pose proof (execFrom_None _ _ _ _ Hexec pre _ Hs) as Hm.
    rewrite app_nil_r in Hm.
    pose proof (titleRe_matchAt_None _ _ Hm) as Hno.
    rewrite rev_involutive, <- Hs in Hno. exact (Hno _ _ _ Hh).
Qed.

(** The first heading is unique. *)
Lemma FirstHeading_unique (s cap1 cap2 : str) :
  FirstHeading s cap1 -> FirstHeading s cap2 -> cap1 = cap2.
Proof.
  intros (pre1 & ws1 & post1 & H1 & M1) (pre2 & ws2 & post2 & H2 & M2).
  destruct (M1 _ _ _ _ H2) as [L12 W12].
  destruct (M2 _ _ _ _ H1) as [L21 W21].
  assert (Hlen : length pre1 = length pre2) by lia.
  specialize (W12 (eq_sym Hlen)). specialize (W21 Hlen).
  destruct H1 as [S1 _ _ [_ N1] E1], H2 as [S2 _ _ [_ N2] E2].
  rewrite S1 in S2.
  apply app_inj_1 in S2 as [_ S2]; [|exact Hlen].
  injection S2 as S2.
  apply app_inj_1 in S2 as [_ S2]; [|lia].
  now apply (line_split_unique cap1 post1 cap2 post2).
Qed.

Lemma HasHeading_first (s : str) :
  HasHeading s -> exists cap, FirstHeading s cap.
Proof.
  intros H. destruct (title_match_spec s) as [(cap & Hf & _)|[Hno _]].
  - now exists cap.
  - contradiction.
Qed.

Lemma title_match_first (s cap : str) :
  FirstHeading s cap ->
  andGroup1 (match_ unicodeUpper s titleRe) = Some cap.
Proof.
  intros H. destruct (title_match_spec s) as [(cap' & Hf & Hm)|[Hno _]].
  - now rewrite (FirstHeading_unique s cap cap').
  - exfalso. apply Hno. destruct H as (pre & ws & post & Hh & _).
    now exists pre, ws, cap, post.
Qed.

Lemma title_match_none (s : str) :
  ~ HasHeading s -> andGroup1 (match_ unicodeUpper s titleRe) = None.
Proof.
  intros H. destruct (title_match_spec s) as [(cap & Hf & _)|[_ Hm]].
  - exfalso. apply H. destruct Hf as (pre & ws & post & Hh & _).
    now exists pre, ws, cap, post.
  - exact Hm.
Qed.

End TitleMatch.

(** ** The file-name pattern [/([^/\\]+)\.md$/i] *)

Section FileNamePattern.

Variable unicodeUpper : N -> N.

Import RegExp.

Local Abbreviation fli := {| ignoreCase := true; multiline := false |}.
Local Abbreviation extension :=
  (Seq (Atom (Lit 46)) (Seq (Atom (Lit 109)) (Seq (Atom (Lit 100)) Eol))).
Local Abbreviation noSeparator := (Forall (fun c => isSeparator c = false)).

(** Case-insensitive comparison against an ASCII pattern character that
    is not a lower-case letter's upper-case form. *)
Lemma canonicalize_ascii (p ch : N) :
  p < 128 ->
  (canonicalize unicodeUpper fli p =? canonicalize unicodeUpper fli ch) = true
  <-> ch < 128 /\
      (if (97 <=? p) && (p <=? 122) then p - 32 else p)
      = (if (97 <=? ch) && (ch <=? 122) then ch - 32 else ch).
Proof.
  intros Hp. unfold canonicalize. cbn [ignoreCase].
  destruct (N.ltb_spec p 128); [|lia].
  rewrite N.eqb_eq.
  destruct (N.ltb_spec ch 128).
  - tauto.
  - split; [|lia]. intros Heq. exfalso.
    assert (Hlt : (if (97 <=? p) && (p <=? 122) then p - 32 else p) < 128).
    { destruct ((97 <=? p) && (p <=? 122)); lia. }
    rewrite Heq in Hlt.
    destruct (N.ltb_spec (unicodeUpper ch) 128); lia.
Qed.

Lemma accepts_46 (ch : N) :
  accepts unicodeUpper fli (Lit 46) ch = true <-> ch = 46.
Proof.
  unfold accepts. rewrite canonicalize_ascii by lia. simpl.
  destruct (N.leb_spec 97 ch), (N.leb_spec ch 122); simpl; lia.
Qed.

Lemma accepts_109 (ch : N) :
  accepts unicodeUpper fli (Lit 109) ch = true <-> ch = 109 \/ ch = 77.
Proof.
  unfold accepts. rewrite canonicalize_ascii by lia. simpl.
  destruct (N.leb_spec 97 ch), (N.leb_spec ch 122); simpl; lia.
Qed.

Lemma accepts_100 (ch : N) :
  accepts unicodeUpper fli (Lit 100) ch = true <-> ch = 100 \/ ch = 68.
Proof.
  unfold accepts. rewrite canonicalize_ascii by lia. simpl.
  destruct (N.leb_spec 97 ch), (N.leb_spec ch 122); simpl; lia.
Qed.

Lemma accepts_separator (ch : N) :
  accepts unicodeUpper fli (NoneOf [47; 92]) ch = negb (isSeparator ch).
Proof.
  unfold accepts, isSeparator. cbn [existsb]. rewrite orb_false_r.
  f_equal. f_equal.
  - apply eq_iff_eq_true. rewrite canonicalize_ascii by lia. simpl.
    rewrite N.eqb_eq.
    destruct (N.leb_spec 97 ch), (N.leb_spec ch 122); simpl; lia.
  - apply eq_iff_eq_true. rewrite canonicalize_ascii by lia. simpl.
    rewrite N.eqb_eq.
    destruct (N.leb_spec 97 ch), (N.leb_spec ch 122); simpl; lia.
Qed.

(** [\.md$] succeeds exactly on an extension that ends the input. *)
Lemma extension_Some (x z : State) (k : Continuation) :
  m unicodeUpper fli extension x k = Some z ->
  MdExtension (after x) /\
  k {| before := rev (after x) ++ before x; after := [];
       captures := captures x |} = Some z.
Proof.
  cbn [m before after captures].
  destruct (after x) as [|c0 [|c1 [|c2 [|c3 t]]]]; try discriminate;
    destruct (accepts unicodeUpper fli (Lit 46) c0) eqn:H0;
    try discriminate;
    try (destruct (accepts unicodeUpper fli (Lit 109) c1) eqn:H1;
         try discriminate);
    try (destruct (accepts unicodeUpper fli (Lit 100) c2) eqn:H2;
         try discriminate).
  intros H. apply accepts_46 in H0. apply accepts_109 in H1.
  apply accepts_100 in H2. subst c0. split.
  - now exists c1, c2.
  - exact H.
Qed.

Lemma extension_ok (x : State) (k : Continuation) :
  MdExtension (after x) ->
  m unicodeUpper fli extension x k
  = k {| before := rev (after x) ++ before x; after := [];
         captures := captures x |}.
Proof.
  intros (e1 & e2 & Hx & H1 & H2). cbn [m before after captures].
  rewrite Hx.
  apply accepts_109 in H1. apply accepts_100 in H2.
  rewrite (proj2 (accepts_46 46) eq_refl), H1, H2. reflexivity.
Qed.

Lemma fileNameRe_matchAt_Some (bef aft : str) (r : MatchArray) :
  matchAt unicodeUpper fileNameRe bef aft = Some r ->
  exists base ext,
    aft = base ++ ext /\ (base <> [] /\ noSeparator base) /\
    MdExtension ext /\ r = [Some (base ++ ext); Some base].
Proof.
  unfold matchAt, fileNameRe. cbn [source flags groups].
  set (x := {| before := bef; after := aft; captures := replicate 2 None |}).
  rewrite m_Seq.
  destruct (m unicodeUpper fli _ x _) as [y|] eqn:Hy; [|discriminate].
  intros [= <-]. set (ext := extension) in Hy.
  cbn [m] in Hy. subst x. cbn [before after captures] in Hy.
  destruct aft as [|ch aft']; [discriminate|].
  rewrite accepts_separator in Hy.
  destruct (isSeparator ch) eqn:Hch; [discriminate|]. simpl negb in Hy.
  cbv iota in Hy.
  apply star_Some in Hy as (run & rest & Haft & Hrun & Hk & _).
  subst ext. apply extension_Some in Hk as [Hext Hk].
  cbn [before after captures] in Hk, Hext.
  injection Hk as <-. cbn [before after captures].
  exists (ch :: run), rest. split; [|split; [|split]].
  - simpl. congruence.
  - split; [discriminate|]. constructor; [exact Hch|].
    eapply Forall_impl; [exact Hrun|]. cbv beta. intros c Hc.
    rewrite accepts_separator in Hc. now destruct (isSeparator c).
  - exact Hext.
  - rewrite (consumed_app _ _ (ch :: run ++ rest)).
    2: { simpl. rewrite !rev_app_distr. simpl. now rewrite <- !app_assoc. }
    rewrite (consumed_app _ _ (ch :: run)).
    2: { simpl. now rewrite <- !app_assoc. }
    reflexivity.
Qed.

Lemma fileNameRe_matchAt_None (bef aft : str) :
  matchAt unicodeUpper fileNameRe bef aft = None ->
  forall base ext,
    aft = base ++ ext -> base <> [] -> noSeparator base ->
    MdExtension ext -> False.
Proof.
  unfold matchAt, fileNameRe. cbn [source flags groups].
  set (x := {| before := bef; after := aft; captures := replicate 2 None |}).
  rewrite m_Seq.
  destruct (m unicodeUpper fli _ x _) as [y|] eqn:Hy; [discriminate|].
  intros _ base ext Haft Hne Hbase Hext. set (e := extension) in Hy.
  cbn [m] in Hy. subst x. cbn [before after captures] in Hy.
  destruct base as [|ch run]; [congruence|]. subst aft. simpl app in Hy.
  cbv iota in Hy. inversion Hbase as [|? ? Hch Hrun]; subst.
  rewrite accepts_separator, Hch in Hy. simpl negb in Hy. cbv iota in Hy.
  eapply star_None with (run := run) (rest := ext) in Hy; auto.
  - subst e. rewrite extension_ok in Hy by exact Hext. discriminate.
  - eapply Forall_impl; [exact Hrun|]. cbv beta. intros c Hc.
    now rewrite accepts_separator, Hc.
Qed.

End FileNamePattern.

Section FileNameMatch.

Variable unicodeUpper : N -> N.

Import RegExp.

Local Abbreviation noSeparator := (Forall (fun c => isSeparator c = false)).

Lemma MdExtension_length (ext : str) : MdExtension ext -> length ext = 3%nat.
Proof. now intros (e1 & e2 & -> & _). Qed.

(** A path has at most one [.md] basename. *)
Lemma MdBasename_unique (path base1 base2 : str) :
  MdBasename path base1 -> MdBasename path base2 -> base1 = base2.
Proof.
  intros (d1 & e1 & [S1 D1 [_ B1] E1]) (d2 & e2 & [S2 D2 [_ B2] E2]).
  rewrite S1 in S2. apply (f_equal (@rev N)) in S2.
  rewrite !rev_app_distr, <- !app_assoc in S2.
  apply app_inj_1 in S2 as [_ S2].
  2: { rewrite !length_rev.
       now rewrite (MdExtension_length _ E1), (MdExtension_length _ E2). }
  assert (Hstop : forall d, (d = [] \/ exists d' c,
                    d = d' ++ [c] /\ isSeparator c = true) ->
                  rev d = [] \/ exists c t, rev d = c :: t /\ isSeparator c = true).
  { intros d [->|(d' & c & -> & Hc)]; [now left|right].
    exists c, (rev d'). now rewrite rev_app_distr. }
  apply (span_unique isSeparator) in S2;
    auto using List.Forall_rev.
  apply (f_equal (@rev N)) in S2. now rewrite !rev_involutive in S2.
Qed.

(** The first group of [fileName.match(fileNameRe)] is the [.md] basename
    of the path, and the match is null exactly when the path has none. *)
Lemma fileName_match_spec (path : str) :
  (exists base, MdBasename path base /\
     andGroup1 (match_ unicodeUpper path fileNameRe) = Some base) \/
  (~ HasMdBasename path /\
     andGroup1 (match_ unicodeUpper path fileNameRe) = None).
Proof.
  unfold match_.
  destruct (execFrom unicodeUpper fileNameRe [] path) as [r|] eqn:Hexec.
  - left.
    apply execFrom_Some in Hexec as (skipped & rest & Hs & Hm & Hmin).
    apply fileNameRe_matchAt_Some in Hm
      as (base & ext & Hrest & [Hne Hbase] & Hext & ->).
    exists base. split.
    + exists skipped, ext. constructor; auto; [congruence|].
      destruct skipped as [|c sk' _] using rev_ind; [now left|right].
      exists sk', c. split; [reflexivity|].
      destruct (isSeparator c) eqn:Hc; [reflexivity|exfalso].
      assert (Hsplit : path = sk' ++ (c :: rest)).
      { rewrite Hs, <- app_assoc. reflexivity. }
      specialize (Hmin sk' (c :: rest) Hsplit).
      rewrite length_app in Hmin. simpl in Hmin.
      specialize (Hmin ltac:(lia)).
      apply (fileNameRe_matchAt_None _ _ _ Hmin (c :: base) ext).
      * simpl. congruence.
      * discriminate.
      * now constructor.
      * exact Hext.
    + simpl. destruct base; [congruence | reflexivity].
  - right. split; [|reflexivity].
    intros (base & dir & ext & [Hs _ [Hne Hbase] Hext]).
    pose proof (execFrom_None _ _ _ _ Hexec dir _ Hs) as Hm.
    exact (fileNameRe_matchAt_None _ _ _ Hm base ext eq_refl Hne Hbase Hext).
Qed.

Lemma fileName_match_basename (path base : str) :
  MdBasename path base ->
  andGroup1 (match_ unicodeUpper path fileNameRe) = Some base.
Proof.
  intros H.
  destruct (fileName_match_spec path) as [(base' & Hb & Hm)|[Hno _]].
  - now rewrite (MdBasename_unique path base base').
  - exfalso. apply Hno. now exists base.
Qed.

Lemma fileName_match_none (path : str) :
  ~ HasMdBasename path ->
  andGroup1 (match_ unicodeUpper path fileNameRe) = None.
Proof.
  intros H.
  destruct (fileName_match_spec path) as [(base & Hb & _)|[_ Hm]].
  - exfalso. apply H. now exists base.
  - exact Hm.
Qed.

End FileNameMatch.

(** ** Title extraction *)

Section ExtractTitle.

Variable unicodeUpper : N -> N.

Import RegExp.

(** Both patterns can be decided by running the matcher. *)
Lemma heading_by_match (s cap : str) :
  andGroup1 (match_ unicodeUpper s titleRe) = Some cap -> FirstHeading s cap.
Proof.
  intros H.
  destruct (title_match_spec unicodeUpper s) as [(cap' & Hf & Hm)|[_ Hm]];
    congruence.
Qed.

Lemma no_heading_by_match (s : str) :
  andGroup1 (match_ unicodeUpper s titleRe) = None -> ~ HasHeading s.
Proof.
  intros H.
  destruct (title_match_spec unicodeUpper s) as [(cap' & Hf & Hm)|[Hno _]];
    congruence.
Qed.

Lemma basename_by_match (path base : str) :
  andGroup1 (match_ unicodeUpper path fileNameRe) = Some base ->
  MdBasename path base.
Proof.
  intros H.
  destruct (fileName_match_spec unicodeUpper path)
    as [(base' & Hb & Hm)|[_ Hm]]; congruence.
Qed.

Lemma no_basename_by_match (path : str) :
  andGroup1 (match_ unicodeUpper path fileNameRe) = None ->
  ~ HasMdBasename path.
Proof.
  intros H.
  destruct (fileName_match_spec unicodeUpper path)
    as [(base' & Hb & Hm)|[Hno _]]; congruence.
Qed.

Lemma extractTitle_heading (document : TextDocument) (cap : str) :
  FirstHeading (getText document) cap ->
  extractTitle unicodeUpper document = Some (trim cap).
Proof.
  intros H. unfold extractTitle.
  now rewrite (title_match_first unicodeUpper _ _ H).
Qed.

Lemma extractTitle_basename (document : TextDocument) (base : str) :
  ~ HasHeading (getText document) ->
  MdBasename (fileName document) base ->
  extractTitle unicodeUpper document = Some base.
Proof.
  intros Hno Hb. unfold extractTitle.
  rewrite (title_match_none unicodeUpper _ Hno).
  now rewrite (fileName_match_basename unicodeUpper _ _ Hb).
Qed.

Lemma extractTitle_fallback (document : TextDocument) :
  ~ HasHeading (getText document) ->
  ~ HasMdBasename (fileName document) ->
  extractTitle unicodeUpper document
  = if isUntitled document then Some (js "未命名文档") else None.
Proof.
  intros Hno Hnb. unfold extractTitle.
  rewrite (title_match_none unicodeUpper _ Hno).
  now rewrite (fileName_match_none unicodeUpper _ Hnb).
Qed.


(** Rule 1 in terms of the pattern: if the text contains, at a line start,
    [#] followed by white space
    (characters of the class [\s]) and one or more characters, then
    [extractTitle] returns the trimmed heading text of the first such
    heading, whatever the file path, the untitled flag and the language
    of the document. *)
Theorem extractTitle_first_heading (text : str) :
  HasHeading text ->
  exists cap,
    FirstHeading text cap /\
    forall (path : str) (untitled : bool) (language : str),
      extractTitle unicodeUpper
        {| getText := text; fileName := path; isUntitled := untitled;
           languageId := language |} = Some (trim cap).
Proof.
  intros H. destruct (HasHeading_first unicodeUpper text H) as [cap Hf].
  exists cap. split; [exact Hf|].
  intros path untitled language. now apply extractTitle_heading.
Qed.


End ExtractTitle.

(** ** Numbers as text *)

Section NumberFacts.

Lemma js_string_of_uint (d : Decimal.uint) :
  js (NilEmpty.string_of_uint d) = decimalDigits d.
Proof.
  unfold Utf.js. induction d; simpl in *; try reflexivity;
    now rewrite IHd.
Qed.

Lemma decimalDigits_inj (d1 d2 : Decimal.uint) :
  decimalDigits d1 = decimalDigits d2 -> d1 = d2.
Proof.
  revert d2. induction d1; destruct d2; simpl; intros [=];
    try reflexivity; f_equal; auto.
Qed.

Lemma decimalDigits_no_colon (d : Decimal.uint) :
  Forall (fun c => (c =? 58) = false) (decimalDigits d).
Proof. induction d; simpl; constructor; auto. Qed.

Lemma to_uint_not_Nil (n : N) : N.to_uint n <> Decimal.Nil.
Proof.
  rewrite <- (DecimalN.Unsigned.of_to n) at 1.
  rewrite DecimalN.Unsigned.to_of. unfold Decimal.unorm.
  now destruct (Decimal.nzhead (N.to_uint n)).
Qed.

Lemma numberToString_digits (n : N) :
  numberToString n = decimalDigits (N.to_uint n).
Proof.
  unfold numberToString, NilZero.string_of_uint.
  pose proof (to_uint_not_Nil n) as H.
  destruct (N.to_uint n) eqn:E; try congruence;
    rewrite <- E; apply js_string_of_uint.
Qed.

Lemma numberToString_inj (n1 n2 : N) :
  numberToString n1 = numberToString n2 -> n1 = n2.
Proof.
  rewrite !numberToString_digits. intros H%decimalDigits_inj.
  rewrite <- (DecimalN.Unsigned.of_to n1), <- (DecimalN.Unsigned.of_to n2).
  now rewrite H.
Qed.

(** The text [HTTP <status>: <body>] determines the status and the
    body. *)
Lemma http_message_inj (n1 n2 : N) (t1 t2 : str) :
  js "HTTP " ++ numberToString n1 ++ js ": " ++ t1
  = js "HTTP " ++ numberToString n2 ++ js ": " ++ t2 ->
  n1 = n2 /\ t1 = t2.
Proof.
  intros H. apply app_inv_head in H.
  assert (Hd : numberToString n1 = numberToString n2).
  { apply (span_unique (fun c => c =? 58) _ (js ": " ++ t1) _ (js ": " ++ t2));
      auto.
    - rewrite numberToString_digits. apply decimalDigits_no_colon.
    - right. now exists 58, (32 :: t1).
    - rewrite numberToString_digits. apply decimalDigits_no_colon.
    - right. now exists 58, (32 :: t2). }
  rewrite Hd in H. apply app_inv_head in H. apply app_inv_head in H.
  split; [now apply numberToString_inj | exact H].
Qed.

End NumberFacts.

(** ** Reading the configuration *)

Section Configuration.

Lemma orUndefined_None (s : str) : orUndefined s = None <-> s = [].
Proof. unfold orUndefined. destruct s; simpl; split; congruence. Qed.

Lemma orUndefined_Some (s a : str) :
  orUndefined s = Some a <-> a = s /\ s <> [].
Proof.
  unfold orUndefined. destruct s; simpl; split.
  - discriminate.
  - now intros [_ H].
  - intros [= <-]. split; [reflexivity | discriminate].
  - now intros [-> _].
Qed.

(** A valid configuration is returned without any call on the host. *)
Lemma getConfiguration_Some (h : Env) (config : Wire.WeChatConfig) :
  outcome (getConfiguration h) = Normal (Some config) ->
  getConfiguration h = ([], Normal (Some config)).
Proof.
  unfold getConfiguration.
  destruct (negb (truthy (trim (get h (js "appid") [])))
            || negb (truthy (trim (get h (js "appSecret") [])))).
  - unfold bind, call, ret.
    destruct (bool_decide _); simpl; discriminate.
  - simpl. now intros [= <-].
Qed.

(** The optional fields of a configuration that was read from the
    settings are absent or non-empty. *)
Lemma getConfiguration_optional (h : Env) (config : Wire.WeChatConfig) :
  outcome (getConfiguration h) = Normal (Some config) ->
  Wire.author config <> Some [] /\ Wire.digest config <> Some [].
Proof.
  unfold getConfiguration.
  destruct (negb (truthy (trim (get h (js "appid") [])))
            || negb (truthy (trim (get h (js "appSecret") [])))).
  - unfold bind, call, ret.
    destruct (bool_decide _); simpl; discriminate.
  - simpl. intros [= <-]. simpl.
    split; intros H; apply orUndefined_Some in H as [H1 H2]; congruence.
Qed.

(** C5. For every state of the settings, [getConfiguration] completes
    normally. It returns null exactly when the trimmed [appid] or the
    trimmed [appSecret] setting is empty (unset, empty or only white
    space). Otherwise it returns a configuration whose [appid] and
    [appSecret] are the trimmed settings, non-empty and without white
    space at either end, and whose [author] and [digest] are undefined
    when the setting trims to the empty string and the non-empty trimmed
    setting otherwise (never the empty string). *)
Theorem getConfiguration_valid (h : Env) :
  exists log result,
    getConfiguration h = (log, Normal result) /\
    (result = None <->
       trim (get h (js "appid") []) = [] \/
       trim (get h (js "appSecret") []) = []) /\
    forall config, result = Some config ->
      (Wire.appid config = trim (get h (js "appid") []) /\
       Wire.appid config <> [] /\ Trimmed (Wire.appid config)) /\
      (Wire.appSecret config = trim (get h (js "appSecret") []) /\
       Wire.appSecret config <> [] /\ Trimmed (Wire.appSecret config)) /\
      (Wire.author config = None <-> trim (get h (js "author") []) = []) /\
      (Wire.digest config = None <-> trim (get h (js "digest") []) = []) /\
      (forall a, Wire.author config = Some a ->
         a = trim (get h (js "author") []) /\ a <> []) /\
      (forall d, Wire.digest config = Some d ->
         d = trim (get h (js "digest") []) /\ d <> []).
Proof.
  unfold getConfiguration.
  set (appid := trim (get h (js "appid") [])).
  set (appSecret := trim (get h (js "appSecret") [])).
  set (author := trim (get h (js "author") [])).
  set (digest := trim (get h (js "digest") [])).
  destruct (truthy appid) eqn:Ha; [destruct (truthy appSecret) eqn:Hs|];
    cbn [negb orb].
  - apply truthy_true in Ha, Hs.
    eexists [], _. split; [reflexivity|]. split.
    + split; [discriminate | intros [?|?]; congruence].
    + intros config [= <-]. cbn [Wire.appid Wire.appSecret Wire.author
                                  Wire.digest].
      split; [|split; [|split; [|split; [|split]]]].
      * split; [reflexivity|]. split; [exact Ha | apply trim_Trimmed].
      * split; [reflexivity|]. split; [exact Hs | apply trim_Trimmed].
      * apply orUndefined_None.
      * apply orUndefined_None.
      * intros a H. apply orUndefined_Some in H as [-> H]. now split.
      * intros d H. apply orUndefined_Some in H as [-> H]. now split.
  - apply truthy_false in Hs. unfold bind, call, ret.
    destruct (bool_decide _); simpl; eexists _, None;
      (split; [reflexivity|]); (split; [tauto | discriminate]).
  - apply truthy_false in Ha. unfold bind, call, ret.
    destruct (bool_decide _); simpl; eexists _, None;
      (split; [reflexivity|]); (split; [tauto | discriminate]).
Qed.

End Configuration.

(** ** The remote call *)

Section RemoteCall.

Lemma ok_range (response : Response) :
  ok response = true <-> 200 <= status response <= 299.
Proof.
  unfold ok. rewrite andb_true_iff, !N.leb_le. tauto.
Qed.

Lemma callWeChatApi_run (h : Env) (markdown title : str)
    (config : Wire.WeChatConfig) :
  callWeChatApi h markdown title config
  = let request := buildRequest markdown title config in
    match fetch h request with
    | Throw e => ([Fetch request], Throw e)
    | Normal response =>
        if ok response then
          match json response with
          | Throw e => ([Fetch request; ResponseJson], Throw e)
          | Normal result =>
              if Wire.success result
              then ([Fetch request; ResponseJson], Normal result)
              else ([Fetch request; ResponseJson],
                    Throw (ErrorObject
                             (orElse (Wire.error result)
                                (orElse (Wire.message result)
                                   (js "上传失败")))))
          end
        else
          ([Fetch request; ResponseText],
           Throw (ErrorObject
                    (js "HTTP " ++ numberToString (status response)
                       ++ js ": " ++ text response)))
    end.
Proof.
  unfold callWeChatApi, bind, call, await, throw, ret. cbv zeta.
  destruct (fetch h _) as [response|e]; [|reflexivity].
  destruct (ok response); cbn [negb].
  - destruct (json response) as [result|e]; [|reflexivity].
    now destruct (Wire.success result).
  - reflexivity.
Qed.

(** C6. When the response status is outside 200-299, [callWeChatApi]
    reads the body as text, never as JSON, and throws an [Error] whose
    message is [HTTP <status>: <body>]: the decimal status and the body
    text as received. The message determines both: two responses giving
    the same message have the same status and the same body text. *)
Theorem callWeChatApi_http_error (h : Env) (markdown title : str)
    (config : Wire.WeChatConfig) (response : Response) :
  fetch h (buildRequest markdown title config) = Normal response ->
  status response < 200 \/ 299 < status response ->
  callWeChatApi h markdown title config
  = ([Fetch (buildRequest markdown title config); ResponseText],
     Throw (ErrorObject
              (js "HTTP " ++ numberToString (status response)
                 ++ js ": " ++ text response))) /\
  ~ In ResponseJson (calls (callWeChatApi h markdown title config)) /\
  forall status' text',
    js "HTTP " ++ numberToString status' ++ js ": " ++ text'
    = js "HTTP " ++ numberToString (status response)
        ++ js ": " ++ text response ->
    status' = status response /\ text' = text response.
Proof.
  intros Hf Hs. rewrite callWeChatApi_run. cbv zeta. rewrite Hf.
  destruct (ok response) eqn:Hok.
  - apply ok_range in Hok. lia.
  - split; [reflexivity|]. split.
    + simpl. intros [H|[H|[]]]; discriminate.
    + intros status' text'. apply http_message_inj.
Qed.

(** C7, as amended. For a response with a 2xx status whose JSON body has
    a false success flag, [callWeChatApi] throws an [Error] whose message
    is the [error] field when that is present and non-empty, else the
    [message] field when that is present and non-empty, else the fixed
    text. An empty [error] or [message] field counts as absent. *)
Theorem callWeChatApi_business_error (h : Env) (markdown title : str)
    (config : Wire.WeChatConfig) (response : Response)
    (result : Wire.ApiResponse) :
  fetch h (buildRequest markdown title config) = Normal response ->
  200 <= status response <= 299 ->
  json response = Normal result ->
  Wire.success result = false ->
  exists text,
    callWeChatApi h markdown title config
    = ([Fetch (buildRequest markdown title config); ResponseJson],
       Throw (ErrorObject text)) /\
    (forall e, Wire.error result = Some e -> e <> [] -> text = e) /\
    (Wire.error result = None \/ Wire.error result = Some [] ->
     forall m, Wire.message result = Some m -> m <> [] -> text = m) /\
    (Wire.error result = None \/ Wire.error result = Some [] ->
     Wire.message result = None \/ Wire.message result = Some [] ->
     text = js "上传失败").
Proof.
  intros Hf Hs Hj Hr. rewrite callWeChatApi_run. cbv zeta. rewrite Hf.
  rewrite (proj2 (ok_range response) Hs), Hj, Hr.
  eexists. split; [reflexivity|]. unfold orElse.
  destruct (Wire.error result) as [[|c e]|];
    destruct (Wire.message result) as [[|d m]|]; simpl;
    repeat split; intros; try congruence;
    repeat match goal with
           | H : _ \/ _ |- _ => destruct H
           end; congruence.
Qed.

(** C8. For a response with a 2xx status whose JSON body has a true
    success flag and a data payload, [callWeChatApi] completes normally
    with the parsed body itself. *)
Theorem callWeChatApi_success (h : Env) (markdown title : str)
    (config : Wire.WeChatConfig) (response : Response)
    (result : Wire.ApiResponse) (payload : Wire.DraftData) :
  fetch h (buildRequest markdown title config) = Normal response ->
  200 <= status response <= 299 ->
  json response = Normal result ->
  Wire.success result = true ->
  Wire.data result = Some payload ->
  callWeChatApi h markdown title config
  = ([Fetch (buildRequest markdown title config); ResponseJson],
     Normal result) /\
  forall returned,
    outcome (callWeChatApi h markdown title config) = Normal returned ->
    Wire.data returned = Some payload /\
    Wire.success returned = Wire.success result /\
    Wire.message returned = Wire.message result /\
    Wire.error returned = Wire.error result.
Proof.
  intros Hf Hs Hj Hr Hd. rewrite callWeChatApi_run. cbv zeta. rewrite Hf.
  rewrite (proj2 (ok_range response) Hs), Hj, Hr.
  split; [reflexivity|]. simpl. now intros returned [= <-].
Qed.

(** A normal completion of [callWeChatApi] comes from a 2xx response with
    a true success flag, after exactly one [fetch] and one JSON read. *)
Lemma callWeChatApi_Normal (h : Env) (markdown title : str)
    (config : Wire.WeChatConfig) (result : Wire.ApiResponse) :
  outcome (callWeChatApi h markdown title config) = Normal result ->
  callWeChatApi h markdown title config
  = ([Fetch (buildRequest markdown title config); ResponseJson],
     Normal result).
Proof.
  rewrite callWeChatApi_run. cbv zeta.
  destruct (fetch h _) as [response|e]; [|discriminate].
  destruct (ok response); [|discriminate].
  destruct (json response) as [r|e]; [|discriminate].
  destruct (Wire.success r); [|discriminate].
  now intros [= <-].
Qed.

End RemoteCall.

(** ** The request body *)

Section RequestBody.

Lemma getProp_In (o : Wire.Object) (key value : str) :
  Wire.getProp o key = Some value -> In key (map fst o).
Proof.
  induction o as [|[k v] o IH]; simpl; [discriminate|].
  case_bool_decide; [now left | right; auto].
Qed.

(** The request body for an arbitrary configuration record. The body
    handed to [fetch] by [callWeChatApi] holds
    the document text under [markdown], the title under [title] and the
    credentials under [appid] and [app_secret]; it has an [author]
    (resp. [digest]) property if and only if that field of the
    configuration is present and non-empty, and then with that value;
    it has no other property. *)
Theorem request_body_fields (h : Env) (markdown title : str)
    (config : Wire.WeChatConfig) :
  (exists rest,
     calls (callWeChatApi h markdown title config)
     = Fetch {| Wire.url := apiUrl;
                Wire.method := js "POST";
                Wire.headers := [(js "Content-Type", js "application/json")];
                Wire.body := buildRequestBody markdown title config |}
       :: rest) /\
  Wire.getProp (buildRequestBody markdown title config) (js "markdown")
  = Some markdown /\
  Wire.getProp (buildRequestBody markdown title config) (js "title")
  = Some title /\
  Wire.getProp (buildRequestBody markdown title config) (js "appid")
  = Some (Wire.appid config) /\
  Wire.getProp (buildRequestBody markdown title config) (js "app_secret")
  = Some (Wire.appSecret config) /\
  (Wire.hasProp (buildRequestBody markdown title config) (js "author")
   <-> exists a, Wire.author config = Some a /\ a <> []) /\
  (Wire.hasProp (buildRequestBody markdown title config) (js "digest")
   <-> exists d, Wire.digest config = Some d /\ d <> []) /\
  (forall a,
     Wire.getProp (buildRequestBody markdown title config) (js "author")
     = Some a -> Wire.author config = Some a) /\
  (forall d,
     Wire.getProp (buildRequestBody markdown title config) (js "digest")
     = Some d -> Wire.digest config = Some d) /\
  (forall key,
     Wire.hasProp (buildRequestBody markdown title config) key ->
     In key [js "markdown"; js "title"; js "appid"; js "app_secret";
             js "author"; js "digest"]).
Proof.
  split.
  { rewrite callWeChatApi_run. cbv zeta. unfold buildRequest.
    destruct (fetch h _) as [response|e]; [|now eexists].
    destruct (ok response); [|now eexists].
    destruct (json response) as [r|e]; [|now eexists].
    destruct (Wire.success r); now eexists. }
  unfold Wire.hasProp.
  assert (Hiff : forall (o : option str) (P : Prop),
            (is_Some o -> P) -> (P -> is_Some o) -> (is_Some o <-> P))
    by (intros; tauto).
  destruct config as [appid appSecret [[|c a]|] [[|e d]|]];
    unfold buildRequestBody;
    cbn [Wire.author Wire.digest Wire.appid Wire.appSecret truthy];
    (split; [reflexivity|]); (split; [reflexivity|]);
    (split; [reflexivity|]); (split; [reflexivity|]);
    (split; [apply Hiff;
       [ first [ intros [x Hx]; vm_compute in Hx; discriminate Hx
               | intros _; eexists; split; [reflexivity | discriminate] ]
       | first [ intros (x & Hx & Hne); congruence
               | intros _; vm_compute; eauto ] ] |]);
    (split; [apply Hiff;
       [ first [ intros [x Hx]; vm_compute in Hx; discriminate Hx
               | intros _; eexists; split; [reflexivity | discriminate] ]
       | first [ intros (x & Hx & Hne); congruence
               | intros _; vm_compute; eauto ] ] |]);
    (split; [intros x Hx; vm_compute in Hx; congruence|]);
    (split; [intros x Hx; vm_compute in Hx; congruence|]);
    intros key [v Hv]; apply getProp_In in Hv;
    vm_compute in Hv; vm_compute; tauto.
Qed.

(** For a configuration read from the settings, "present" and "present
    and non-empty" coincide. *)
Lemma request_body_optional (h : Env) (markdown title : str)
    (config : Wire.WeChatConfig) :
  outcome (getConfiguration h) = Normal (Some config) ->
  (Wire.hasProp (buildRequestBody markdown title config) (js "author")
   <-> is_Some (Wire.author config)) /\
  (Wire.hasProp (buildRequestBody markdown title config) (js "digest")
   <-> is_Some (Wire.digest config)).
Proof.
  intros Hc. apply getConfiguration_optional in Hc as [Ha Hd].
  unfold Wire.hasProp.
  destruct config as [appid appSecret [[|c a]|] [[|e d]|]];
    try (now cbn [Wire.author] in Ha); try (now cbn [Wire.digest] in Hd);
    unfold buildRequestBody;
    cbn [Wire.author Wire.digest Wire.appid Wire.appSecret truthy];
    split; split; intros [x Hx]; vm_compute in Hx |- *;
    first [discriminate Hx | eauto].
Qed.

End RequestBody.

(** ** The upload workflow *)

Section Workflow.

Variable unicodeUpper : N -> N.

(** What the progress callback does after a normal completion of the
    remote call. *)
Lemma uploadTask_Normal (h : Env) (markdown title : str)
    (config : Wire.WeChatConfig) (result : Wire.ApiResponse) :
  outcome (callWeChatApi h markdown title config) = Normal result ->
  Wire.data result = None ->
  uploadTask h markdown title config
  = ([ProgressReport 0 (js "准备上传...");
      Fetch (buildRequest markdown title config);
      ResponseJson;
      ProgressReport 100 (js "上传完成");
      ShowInformationMessage
        (orElse (Wire.message result) (js "上传成功！")) []],
     Normal tt).
Proof.
  intros Hr Hd. unfold uploadTask. apply callWeChatApi_Normal in Hr.
  rewrite Hr. unfold tryCatch, bind, call, ret. rewrite Hd.
  now destruct (Wire.success result).
Qed.

(** C1, as amended. When the remote call returns a result whose success
    flag is true and whose data payload is absent, the presentation step
    shows no error: it shows one information notification, without
    actions, whose text is the [message] field of the result when that is
    present and non-empty, and the fixed text of a successful upload
    otherwise. *)
Theorem present_success_without_data (h : Env) (markdown title : str)
    (config : Wire.WeChatConfig) (result : Wire.ApiResponse) :
  outcome (callWeChatApi h markdown title config) = Normal result ->
  Wire.success result = true ->
  Wire.data result = None ->
  uploadTask h markdown title config
  = ([ProgressReport 0 (js "准备上传...");
      Fetch (buildRequest markdown title config);
      ResponseJson;
      ProgressReport 100 (js "上传完成");
      ShowInformationMessage
        (orElse (Wire.message result) (js "上传成功！")) []],
     Normal tt) /\
  ~ ShowsError (calls (uploadTask h markdown title config)) /\
  (Wire.message result = None \/ Wire.message result = Some [] ->
   ShowsInformation (calls (uploadTask h markdown title config))
     (js "上传成功！")).
Proof.
  intros Hr _ Hd. rewrite (uploadTask_Normal h _ _ _ _ Hr Hd).
  split; [reflexivity|]. split.
  - intros (message & items & Hin). cbn [calls fst In] in Hin.
    repeat (destruct Hin as [Hin|Hin]; [discriminate Hin|]). exact Hin.
  - intros Hm. exists []. cbn [calls fst In]. do 4 right. left.
    now destruct Hm as [-> | ->].
Qed.

(** The command up to the title check, for a valid configuration and a
    non-empty Markdown document. *)
Lemma uploadToWeChat_no_title (h : Env) (document : TextDocument)
    (config : Wire.WeChatConfig) :
  outcome (getConfiguration h) = Normal (Some config) ->
  activeTextEditor h = Some document ->
  languageId document = js "markdown" ->
  trim (getText document) <> [] ->
  extractTitle unicodeUpper document = Some [] \/
  extractTitle unicodeUpper document = None ->
  uploadToWeChat unicodeUpper h
  = ([ShowErrorMessage
        (js "无法提取文章标题，请确保文档包含标题或有效文件名") []],
     Normal tt).
Proof.
  intros Hc He Hl Ht Htitle. unfold uploadToWeChat.
  apply getConfiguration_Some in Hc. rewrite Hc.
  unfold tryCatch, bind, call, ret. rewrite He, Hl.
  unfold eqb. rewrite bool_decide_eq_true_2 by reflexivity. cbn [negb].
  apply truthy_true in Ht. rewrite Ht. cbn [negb].
  now destruct Htitle as [-> | ->].
Qed.

(** C10. The text [#] followed by two spaces makes [extractTitle] return
    the empty string, whatever the path and the untitled flag (so neither
    null nor the basename nor the placeholder); and the command, on a
    non-empty Markdown document and with a valid configuration, handles
    an empty title exactly as a null one: it shows the no-title error
    and does nothing else. *)
Theorem empty_title_aborts :
  (forall (path : str) (untitled : bool) (language : str),
     extractTitle unicodeUpper
       {| getText := js "#  "; fileName := path; isUntitled := untitled;
          languageId := language |} = Some []) /\
  (forall (h : Env) (document : TextDocument) (config : Wire.WeChatConfig),
     outcome (getConfiguration h) = Normal (Some config) ->
     activeTextEditor h = Some document ->
     languageId document = js "markdown" ->
     trim (getText document) <> [] ->
     extractTitle unicodeUpper document = Some [] \/
     extractTitle unicodeUpper document = None ->
     uploadToWeChat unicodeUpper h
     = ([ShowErrorMessage
           (js "无法提取文章标题，请确保文档包含标题或有效文件名") []],
        Normal tt)).
Proof.
  split.
  - intros path untitled language.
    rewrite (extractTitle_heading unicodeUpper _ [32]);
      [vm_compute; reflexivity|].
    apply (heading_by_match unicodeUpper). vm_compute. reflexivity.
  - apply uploadToWeChat_no_title.
Qed.

End Workflow.

(** ** Instances on the sample hosts *)

Lemma FirstHeading_HasHeading (s cap : str) :
  FirstHeading s cap -> HasHeading s.
Proof. intros (pre & ws & post & H & _). now exists pre, ws, cap, post. Qed.

Lemma extractTitle_first_heading_witness :
  HasHeading (js "# Hello ") /\
  exists cap,
    FirstHeading (js "# Hello ") cap /\
    forall (path : str) (untitled : bool) (language : str),
      extractTitle Sample.upper
        {| getText := js "# Hello "; fileName := path;
           isUntitled := untitled; languageId := language |}
      = Some (trim cap).
Proof.
  assert (H : HasHeading (js "# Hello ")).
  { apply (FirstHeading_HasHeading _ (js "Hello ")).
    apply (heading_by_match Sample.upper). vm_compute. reflexivity. }
  split; [exact H|].
  exact (extractTitle_first_heading Sample.upper (js "# Hello ") H).
Defined.


Lemma callWeChatApi_http_error_witness :
  let h := Sample.env Sample.settings None
             (Normal (Sample.response 500 "Internal Server Error"
                        (Throw OtherValue))) None in
  callWeChatApi h (js "# T") (js "T") Sample.config
  = ([Fetch (buildRequest (js "# T") (js "T") Sample.config); ResponseText],
     Throw (ErrorObject (js "HTTP 500: Internal Server Error"))).
Proof.
  cbv zeta.
  refine (eq_trans
            (proj1 (callWeChatApi_http_error
                      (Sample.env Sample.settings None
                         (Normal (Sample.response 500 "Internal Server Error"
                                    (Throw OtherValue))) None)
                      (js "# T") (js "T") Sample.config
                      (Sample.response 500 "Internal Server Error"
                         (Throw OtherValue)) eq_refl _)) _).
  - right. vm_compute. reflexivity.
  - vm_compute. reflexivity.
Defined.

Lemma callWeChatApi_business_error_witness :
  let answer := Sample.reply false None None (Some (js "quota exceeded")) in
  let h := Sample.env Sample.settings None
             (Normal (Sample.response 200 "" (Normal answer))) None in
  exists text,
    callWeChatApi h (js "# T") (js "T") Sample.config
    = ([Fetch (buildRequest (js "# T") (js "T") Sample.config); ResponseJson],
       Throw (ErrorObject text)) /\
    text = js "quota exceeded".
Proof.
  cbv zeta.
  destruct (callWeChatApi_business_error
              (Sample.env Sample.settings None
                 (Normal (Sample.response 200 ""
                    (Normal (Sample.reply false None None
                               (Some (js "quota exceeded")))))) None)
              (js "# T") (js "T") Sample.config
              (Sample.response 200 ""
                 (Normal (Sample.reply false None None
                            (Some (js "quota exceeded")))))
              (Sample.reply false None None (Some (js "quota exceeded")))
              eq_refl
              ltac:(vm_compute; split; discriminate) eq_refl eq_refl)
    as (text & Hrun & Herr & _).
  exists text. split; [exact Hrun|].
  apply Herr; [reflexivity | vm_compute; discriminate].
Defined.

Lemma callWeChatApi_success_witness :
  let answer := Sample.reply true (Some Sample.draft) None None in
  let h := Sample.env Sample.settings None
             (Normal (Sample.response 200 "" (Normal answer))) None in
  callWeChatApi h (js "# T") (js "T") Sample.config
  = ([Fetch (buildRequest (js "# T") (js "T") Sample.config); ResponseJson],
     Normal answer).
Proof.
  cbv zeta.
  exact (proj1 (callWeChatApi_success
                  (Sample.env Sample.settings None
                     (Normal (Sample.response 200 ""
                        (Normal (Sample.reply true (Some Sample.draft)
                                   None None)))) None)
                  (js "# T") (js "T") Sample.config
                  (Sample.response 200 ""
                     (Normal (Sample.reply true (Some Sample.draft)
                                None None)))
                  (Sample.reply true (Some Sample.draft) None None)
                  Sample.draft eq_refl
                  ltac:(vm_compute; split; discriminate)
                  eq_refl eq_refl eq_refl)).
Defined.

Lemma present_success_without_data_witness :
  let answer := Sample.reply true None None None in
  let h := Sample.env Sample.settings None
             (Normal (Sample.response 200 "" (Normal answer))) None in
  ~ ShowsError (calls (uploadTask h (js "# T") (js "T") Sample.config)) /\
  ShowsInformation (calls (uploadTask h (js "# T") (js "T") Sample.config))
    (js "上传成功！").
Proof.
  cbv zeta.
  destruct (present_success_without_data
              (Sample.env Sample.settings None
                 (Normal (Sample.response 200 ""
                    (Normal (Sample.reply true None None None)))) None)
              (js "# T") (js "T") Sample.config
              (Sample.reply true None None None)
              ltac:(vm_compute; reflexivity) eq_refl eq_refl)
    as (_ & Hno & Hinfo).
  split; [exact Hno|]. apply Hinfo. now left.
Defined.

(** C1 as stated fails: with a true success flag and no data payload the
    command shows the information notification of a successful upload and
    no error notification. *)
Lemma success_without_data_counterexample :
  let answer := Sample.reply true None None None in
  let h := Sample.env Sample.settings
             (Some (Sample.document "# T" "/notes/t.md"))
             (Normal (Sample.response 200 "" (Normal answer))) None in
  outcome (callWeChatApi h (js "# T") (js "T") Sample.config) = Normal answer /\
  Wire.success answer = true /\ Wire.data answer = None /\
  uploadToWeChat Sample.upper h
  = ([WithProgress (js "正在上传到微信公众号...");
      ProgressReport 0 (js "准备上传...");
      Fetch (buildRequest (js "# T") (js "T") Sample.config);
      ResponseJson;
      ProgressReport 100 (js "上传完成");
      ShowInformationMessage (js "上传成功！") []],
     Normal tt) /\
  ~ ShowsError (calls (uploadToWeChat Sample.upper h)).
Proof.
  cbv zeta. split; [vm_compute; reflexivity|].
  split; [reflexivity|]. split; [reflexivity|].
  split; [vm_compute; reflexivity|].
  intros (message & items & Hin). vm_compute in Hin.
  repeat (destruct Hin as [Hin|Hin]; [discriminate Hin|]). exact Hin.
Qed.

(** C7 as stated fails: an [error] field that is present but empty is
    passed over, and the [message] field is used. *)
Lemma business_error_counterexample :
  let answer := Sample.reply false None (Some (js "try later")) (Some []) in
  let h := Sample.env Sample.settings None
             (Normal (Sample.response 200 "" (Normal answer))) None in
  Wire.success answer = false /\ Wire.error answer = Some [] /\
  outcome (callWeChatApi h (js "# T") (js "T") Sample.config)
  = Throw (ErrorObject (js "try later")) /\
  outcome (callWeChatApi h (js "# T") (js "T") Sample.config)
  <> Throw (ErrorObject []).
Proof.
  cbv zeta. split; [reflexivity|]. split; [reflexivity|].
  split; [vm_compute; reflexivity | vm_compute; discriminate].
Qed.

(** ** The command as a whole *)

Section Command.

Variable unicodeUpper : N -> N.

(** The four required properties of the request body. *)
Lemma buildRequestBody_required (markdown title : str)
    (config : Wire.WeChatConfig) :
  Wire.getProp (buildRequestBody markdown title config) (js "markdown")
  = Some markdown /\
  Wire.getProp (buildRequestBody markdown title config) (js "title")
  = Some title /\
  Wire.getProp (buildRequestBody markdown title config) (js "appid")
  = Some (Wire.appid config) /\
  Wire.getProp (buildRequestBody markdown title config) (js "app_secret")
  = Some (Wire.appSecret config).
Proof.
  destruct config as [appid appSecret [[|c a]|] [[|e d]|]];
    unfold buildRequestBody;
    cbn [Wire.author Wire.digest Wire.appid Wire.appSecret truthy];
    repeat split; reflexivity.
Qed.

(** The log of [callWeChatApi] is the [fetch] followed by at most one
    read of the body. *)
Lemma callWeChatApi_calls (h : Env) (markdown title : str)
    (config : Wire.WeChatConfig) :
  exists tail,
    calls (callWeChatApi h markdown title config)
    = Fetch (buildRequest markdown title config) :: tail /\
    (tail = [] \/ tail = [ResponseText] \/ tail = [ResponseJson]).
Proof.
  rewrite callWeChatApi_run. cbv zeta.
  destruct (fetch h _) as [response|e]; [|exists []; auto].
  destruct (ok response); [|exists [ResponseText]; auto].
  destruct (json response) as [r|e]; [|exists [ResponseJson]; auto].
  destruct (Wire.success r); exists [ResponseJson]; auto.
Qed.

(** The three ways the progress callback can end. *)
Lemma uploadTask_cases (h : Env) (markdown title : str)
    (config : Wire.WeChatConfig) :
  (exists e,
     outcome (callWeChatApi h markdown title config) = Throw e /\
     uploadTask h markdown title config
     = (ProgressReport 0 (js "准备上传...")
          :: calls (callWeChatApi h markdown title config),
        Throw e)) \/
  (exists result d,
     outcome (callWeChatApi h markdown title config) = Normal result /\
     Wire.data result = Some d /\
     uploadTask h markdown title config
     = (let message :=
          js "✅ 上传成功！" ++ [10] ++ js "标题：" ++ Wire.title d
            ++ [10] ++ js "Media ID：" ++ Wire.media_id d in
        let items := [js "复制 Media ID"; js "关闭"] in
        [ProgressReport 0 (js "准备上传...");
         Fetch (buildRequest markdown title config);
         ResponseJson;
         ProgressReport 100 (js "上传完成");
         ShowInformationMessage message items]
        ++ (if bool_decide (pick h message items = Some (js "复制 Media ID"))
            then [ClipboardWriteText (Wire.media_id d);
                  ShowInformationMessage (js "Media ID 已复制到剪贴板") []]
            else []),
        Normal tt)) \/
  (exists result,
     outcome (callWeChatApi h markdown title config) = Normal result /\
     Wire.data result = None /\
     uploadTask h markdown title config
     = ([ProgressReport 0 (js "准备上传...");
         Fetch (buildRequest markdown title config);
         ResponseJson;
         ProgressReport 100 (js "上传完成");
         ShowInformationMessage
           (orElse (Wire.message result) (js "上传成功！")) []],
        Normal tt)).
Proof.
  destruct (callWeChatApi h markdown title config) as [l [result|e]] eqn:Hrun.
  - assert (Hn : outcome (callWeChatApi h markdown title config)
                 = Normal result) by now rewrite Hrun.
    destruct (Wire.data result) as [d|] eqn:Hd.
    + right. left. exists result, d. split; [reflexivity|].
      split; [exact Hd|].
      pose proof (callWeChatApi_Normal _ _ _ _ _ Hn) as Hc.
      assert (Hs : Wire.success result = true).
      { revert Hn. rewrite callWeChatApi_run. cbv zeta.
        destruct (fetch h _) as [response|e]; [|discriminate].
        destruct (ok response); [|discriminate].
        destruct (json response) as [r|e]; [|discriminate].
        destruct (Wire.success r) eqn:Hr; [|discriminate].
        now intros [= <-]. }
      unfold uploadTask. rewrite Hc.
      unfold tryCatch, bind, call, ret. rewrite Hs, Hd. cbv zeta.
      now destruct (bool_decide _).
    + right. right. exists result. split; [reflexivity|].
      split; [exact Hd|]. now apply uploadTask_Normal.
  - left. exists e. split; [reflexivity|].
    unfold uploadTask. rewrite Hrun.
    unfold tryCatch, bind, call, ret, throw. simpl. now rewrite app_nil_r.
Qed.

(** The two ways [getConfiguration] can end. *)
Lemma getConfiguration_cases (h : Env) :
  (trim (get h (js "appid") []) <> [] /\
   trim (get h (js "appSecret") []) <> [] /\
   getConfiguration h
   = ([], Normal (Some
        {| Wire.appid := trim (get h (js "appid") []);
           Wire.appSecret := trim (get h (js "appSecret") []);
           Wire.author := orUndefined (trim (get h (js "author") []));
           Wire.digest := orUndefined (trim (get h (js "digest") [])) |}))) \/
  ((trim (get h (js "appid") []) = [] \/
    trim (get h (js "appSecret") []) = []) /\
   getConfiguration h
   = (let message := js "请先在设置中配置微信公众号的 AppID 和 AppSecret" in
      let items := [js "打开设置"] in
      ShowErrorMessage message items
      :: (if bool_decide (pick h message items = Some (js "打开设置"))
          then [ExecuteCommand (js "workbench.action.openSettings")
                  [js "markdown2weixin"]]
          else []),
      Normal None)).
Proof.
  unfold getConfiguration.
  destruct (truthy (trim (get h (js "appid") []))) eqn:Ha;
    [destruct (truthy (trim (get h (js "appSecret") []))) eqn:Hs|];
    cbn [negb orb].
  - left. apply truthy_true in Ha, Hs. now repeat split.
  - right. apply truthy_false in Hs. split; [now right|].
    unfold bind, call, ret. cbv zeta. now destruct (bool_decide _).
  - right. apply truthy_false in Ha. split; [now left|].
    unfold bind, call, ret. cbv zeta. now destruct (bool_decide _).
Qed.

(** Once every check has passed, the command is the progress callback
    under the notification, with a thrown value turned into one error
    notification and one console entry. *)
Lemma uploadToWeChat_ready (h : Env) (document : TextDocument)
    (config : Wire.WeChatConfig) (title : str) :
  ReadyToUpload unicodeUpper h document config title ->
  uploadToWeChat unicodeUpper h
  = match uploadTask h (getText document) title config with
    | (l, Normal _) =>
        (WithProgress (js "正在上传到微信公众号...") :: l, Normal tt)
    | (l, Throw e) =>
        (WithProgress (js "正在上传到微信公众号...") :: l
           ++ [ShowErrorMessage (js "❌ 上传失败：" ++ errorText e) [];
               ConsoleError (js "上传错误：") e],
         Normal tt)
    end.
Proof.
  intros (Hc & He & Hl & Ht & Htitle & Hne). unfold uploadToWeChat.
  apply getConfiguration_Some in Hc. rewrite Hc.
  unfold bind at 1. cbn [app]. rewrite He, Hl.
  unfold eqb. rewrite bool_decide_eq_true_2 by reflexivity. cbn [negb].
  apply truthy_true in Ht. rewrite Ht. cbn [negb]. rewrite Htitle.
  apply truthy_true in Hne. rewrite Hne.
  destruct (uploadTask h (getText document) title config) as [l [[]|e]];
    unfold tryCatch, bind, call, ret; cbn [app]; [reflexivity|].
  now destruct e.
Qed.

(** Every run of the command ends in one of six ways. *)
Lemma uploadToWeChat_cases (h : Env) :
  ((trim (get h (js "appid") []) = [] \/
    trim (get h (js "appSecret") []) = []) /\
   uploadToWeChat unicodeUpper h = (calls (getConfiguration h), Normal tt) /\
   outcome (getConfiguration h) = Normal None) \/
  (exists message,
     uploadToWeChat unicodeUpper h
     = ([ShowErrorMessage message []], Normal tt)) \/
  (exists document config title,
     ReadyToUpload unicodeUpper h document config title).
Proof.
  destruct (getConfiguration_cases h) as [(_ & _ & Hc)|[Hbad Hc]].
  - right. unfold uploadToWeChat. rewrite Hc.
    unfold bind at 1. cbn [app].
    destruct (activeTextEditor h) as [document|] eqn:He.
    2: { left. now eexists. }
    destruct (eqb (languageId document) (js "markdown")) eqn:Hl; cbn [negb].
    2: { left. now eexists. }
    destruct (truthy (trim (getText document))) eqn:Ht; cbn [negb].
    2: { left. now eexists. }
    destruct (extractTitle unicodeUpper document) as [[|c title]|] eqn:Htitle;
      cbn [truthy].
    + left. now eexists.
    + right. eexists document, _, (c :: title).
      unfold ReadyToUpload. rewrite Hc.
      unfold eqb in Hl. apply bool_decide_eq_true_1 in Hl.
      apply truthy_true in Ht. repeat split; auto.
    + left. now eexists.
  - left. split; [exact Hbad|]. unfold uploadToWeChat. rewrite Hc.
    cbv zeta. unfold tryCatch, bind, ret, calls, outcome. cbn [fst snd].
    now rewrite app_nil_r.
Qed.

End Command.

Section CommandProperties.

Variable unicodeUpper : N -> N.

(** X1. No exception escapes the command: whatever the settings, the editor,
    the server's answer and the user's choices are, [uploadToWeChat]
    completes normally. *)
Theorem uploadToWeChat_never_throws (h : Env) :
  outcome (uploadToWeChat unicodeUpper h) = Normal tt.
Proof.
  destruct (uploadToWeChat_cases unicodeUpper h)
    as [(_ & -> & _)|[[message ->]|(document & config & title & Hr)]];
    try reflexivity.
  rewrite (uploadToWeChat_ready unicodeUpper h _ _ _ Hr).
  now destruct (uploadTask h (getText document) title config) as [l [[]|e]].
Qed.

(** X2. With a missing [appid] or [appSecret] the command shows the
    configuration error with the item that opens the settings, runs the
    settings command exactly when the user picks that item, and does
    nothing else, whatever the editor holds. *)
Theorem invalid_configuration_aborts (h : Env) :
  trim (get h (js "appid") []) = [] \/
  trim (get h (js "appSecret") []) = [] ->
  uploadToWeChat unicodeUpper h
  = (ShowErrorMessage (js "请先在设置中配置微信公众号的 AppID 和 AppSecret")
       [js "打开设置"]
     :: (if bool_decide
              (pick h (js "请先在设置中配置微信公众号的 AppID 和 AppSecret")
                 [js "打开设置"] = Some (js "打开设置"))
         then [ExecuteCommand (js "workbench.action.openSettings")
                 [js "markdown2weixin"]]
         else []),
     Normal tt).
Proof.
  intros Hbad.
  destruct (getConfiguration_cases h) as [(Ha & Hs & _)|[_ Hc]].
  - exfalso. destruct Hbad; contradiction.
  - unfold uploadToWeChat. rewrite Hc. cbv zeta.
    unfold tryCatch, bind, ret. now rewrite app_nil_r.
Qed.

(** X3. With a valid configuration but no active editor the command shows
    the open-a-file error and stops. *)
Theorem no_editor_aborts (h : Env) (config : Wire.WeChatConfig) :
  outcome (getConfiguration h) = Normal (Some config) ->
  activeTextEditor h = None ->
  uploadToWeChat unicodeUpper h
  = ([ShowErrorMessage (js "请先打开一个 Markdown 文件") []], Normal tt).
Proof.
  intros Hc He. unfold uploadToWeChat.
  apply getConfiguration_Some in Hc. rewrite Hc.
  unfold bind at 1. cbn [app]. now rewrite He.
Qed.

(** X4. A document whose language is not [markdown] is refused before its
    text is looked at. *)
Theorem wrong_language_aborts (h : Env) (config : Wire.WeChatConfig)
    (document : TextDocument) :
  outcome (getConfiguration h) = Normal (Some config) ->
  activeTextEditor h = Some document ->
  languageId document <> js "markdown" ->
  uploadToWeChat unicodeUpper h
  = ([ShowErrorMessage (js "当前文件不是 Markdown 文件") []], Normal tt).
Proof.
  intros Hc He Hl. unfold uploadToWeChat.
  apply getConfiguration_Some in Hc. rewrite Hc.
  unfold bind at 1. cbn [app]. rewrite He.
  unfold eqb. now rewrite bool_decide_eq_false_2 by exact Hl.
Qed.

(** X5. A Markdown document that is empty or holds only white space and line
    terminators is refused, whatever its file name: the file-name rule of
    the title is never consulted. *)
Theorem blank_document_aborts (h : Env) (config : Wire.WeChatConfig)
    (document : TextDocument) :
  outcome (getConfiguration h) = Normal (Some config) ->
  activeTextEditor h = Some document ->
  languageId document = js "markdown" ->
  Forall (fun c => isSpace c = true) (getText document) ->
  uploadToWeChat unicodeUpper h
  = ([ShowErrorMessage (js "文档内容为空，无法上传") []], Normal tt).
Proof.
  intros Hc He Hl Hblank. unfold uploadToWeChat.
  apply getConfiguration_Some in Hc. rewrite Hc.
  unfold bind at 1. cbn [app]. rewrite He, Hl.
  unfold eqb. rewrite bool_decide_eq_true_2 by reflexivity. cbn [negb].
  now rewrite (trim_spaces _ Hblank).
Qed.

Lemma uploadToWeChat_failure (h : Env) (document : TextDocument)
    (config : Wire.WeChatConfig) (title : str) (e : Thrown) :
  ReadyToUpload unicodeUpper h document config title ->
  outcome (callWeChatApi h (getText document) title config) = Throw e ->
  uploadToWeChat unicodeUpper h
  = (WithProgress (js "正在上传到微信公众号...")
       :: ProgressReport 0 (js "准备上传...")
       :: calls (callWeChatApi h (getText document) title config)
       ++ [ShowErrorMessage (js "❌ 上传失败：" ++ errorText e) [];
           ConsoleError (js "上传错误：") e],
     Normal tt).
Proof.
  intros Hr He. rewrite (uploadToWeChat_ready unicodeUpper h _ _ _ Hr).
  destruct (uploadTask_cases h (getText document) title config)
    as [(e' & He' & ->)|[(r & d & Hn & _)|(r & Hn & _)]];
    try congruence.
  assert (e' = e) as -> by congruence. reflexivity.
Qed.

(** X6. When the checks pass and the remote call throws, the command reports
    the progress start, makes the calls of the remote call, and then
    shows one error notification with the text of the thrown value and
    writes one console entry. The 100 percent report is not made. *)
Theorem upload_failure_reported (h : Env) (document : TextDocument)
    (config : Wire.WeChatConfig) (title : str) (e : Thrown) :
  ReadyToUpload unicodeUpper h document config title ->
  outcome (callWeChatApi h (getText document) title config) = Throw e ->
  uploadToWeChat unicodeUpper h
  = (WithProgress (js "正在上传到微信公众号...")
       :: ProgressReport 0 (js "准备上传...")
       :: calls (callWeChatApi h (getText document) title config)
       ++ [ShowErrorMessage (js "❌ 上传失败：" ++ errorText e) [];
           ConsoleError (js "上传错误：") e],
     Normal tt).
Proof. apply uploadToWeChat_failure. Qed.

(** X7. End to end, a response with a status outside 200-299 reaches the user
    as the notification [❌ 上传失败：HTTP <status>: <body>]; the body is
    read as text and never parsed. *)
Theorem http_error_shown (h : Env) (document : TextDocument)
    (config : Wire.WeChatConfig) (title : str) (response : Response) :
  ReadyToUpload unicodeUpper h document config title ->
  fetch h (buildRequest (getText document) title config) = Normal response ->
  status response < 200 \/ 299 < status response ->
  calls (uploadToWeChat unicodeUpper h)
  = [WithProgress (js "正在上传到微信公众号...");
     ProgressReport 0 (js "准备上传...");
     Fetch (buildRequest (getText document) title config);
     ResponseText;
     ShowErrorMessage
       (js "❌ 上传失败：" ++ js "HTTP " ++ numberToString (status response)
          ++ js ": " ++ text response) [];
     ConsoleError (js "上传错误：")
       (ErrorObject (js "HTTP " ++ numberToString (status response)
                       ++ js ": " ++ text response))].
Proof.
  intros Hr Hf Hs.
  assert (Hrun : callWeChatApi h (getText document) title config
                 = ([Fetch (buildRequest (getText document) title config);
                     ResponseText],
                    Throw (ErrorObject
                             (js "HTTP " ++ numberToString (status response)
                                ++ js ": " ++ text response)))).
  { rewrite callWeChatApi_run. cbv zeta. rewrite Hf.
    destruct (ok response) eqn:Hok; [|reflexivity].
    apply ok_range in Hok. lia. }
  rewrite (uploadToWeChat_failure h _ _ _ _ Hr
             ltac:(rewrite Hrun; reflexivity)).
  rewrite Hrun. reflexivity.
Qed.

(** X8. End to end, a rejected [fetch] (no response at all) reaches the user
    as one error notification; no body is read. A rejection value that
    is not an [Error] is shown as the unknown-error text. *)
Theorem network_failure_shown (h : Env) (document : TextDocument)
    (config : Wire.WeChatConfig) (title : str) (e : Thrown) :
  ReadyToUpload unicodeUpper h document config title ->
  fetch h (buildRequest (getText document) title config) = Throw e ->
  calls (uploadToWeChat unicodeUpper h)
  = [WithProgress (js "正在上传到微信公众号...");
     ProgressReport 0 (js "准备上传...");
     Fetch (buildRequest (getText document) title config);
     ShowErrorMessage
       (js "❌ 上传失败：" ++
          match e with
          | ErrorObject message => message
          | OtherValue => js "未知错误"
          end) [];
     ConsoleError (js "上传错误：") e].
Proof.
  intros Hr Hf.
  assert (Hrun : callWeChatApi h (getText document) title config
                 = ([Fetch (buildRequest (getText document) title config)],
                    Throw e)).
  { rewrite callWeChatApi_run. cbv zeta. now rewrite Hf. }
  rewrite (uploadToWeChat_failure h _ _ _ _ Hr
             ltac:(rewrite Hrun; reflexivity)).
  rewrite Hrun. reflexivity.
Qed.

(** X9. When the checks pass and the server answers with a data payload, the
    command shows the title and the media id returned by the server with
    the two items, and writes the media id to the clipboard, followed by
    a confirmation, exactly when the user picks the copy item. *)
Theorem upload_success_presented (h : Env) (document : TextDocument)
    (config : Wire.WeChatConfig) (title : str)
    (result : Wire.ApiResponse) (d : Wire.DraftData) :
  ReadyToUpload unicodeUpper h document config title ->
  outcome (callWeChatApi h (getText document) title config) = Normal result ->
  Wire.data result = Some d ->
  uploadToWeChat unicodeUpper h
  = ([WithProgress (js "正在上传到微信公众号...");
      ProgressReport 0 (js "准备上传...");
      Fetch (buildRequest (getText document) title config);
      ResponseJson;
      ProgressReport 100 (js "上传完成");
      ShowInformationMessage
        (js "✅ 上传成功！" ++ [10] ++ js "标题：" ++ Wire.title d
           ++ [10] ++ js "Media ID：" ++ Wire.media_id d)
        [js "复制 Media ID"; js "关闭"]]
     ++ (if bool_decide
              (pick h
                 (js "✅ 上传成功！" ++ [10] ++ js "标题：" ++ Wire.title d
                    ++ [10] ++ js "Media ID：" ++ Wire.media_id d)
                 [js "复制 Media ID"; js "关闭"]
               = Some (js "复制 Media ID"))
         then [ClipboardWriteText (Wire.media_id d);
               ShowInformationMessage (js "Media ID 已复制到剪贴板") []]
         else []),
     Normal tt).
Proof.
  intros Hr Hn Hd. rewrite (uploadToWeChat_ready unicodeUpper h _ _ _ Hr).
  destruct (uploadTask_cases h (getText document) title config)
    as [(e' & He' & _)|[(r & d' & Hn' & Hd' & ->)|(r & Hn' & Hd' & _)]];
    try congruence.
  assert (r = result) as -> by congruence.
  assert (d' = d) as -> by congruence. reflexivity.
Qed.

End CommandProperties.

Section CommandSafety.

Variable unicodeUpper : N -> N.

(** X10. [callWeChatApi] completes normally only on a 2xx response whose JSON
    body has a true success flag: a result with a false flag is never
    returned to the caller. *)
Theorem callWeChatApi_returns_only_success (h : Env) (markdown title : str)
    (config : Wire.WeChatConfig) (result : Wire.ApiResponse) :
  outcome (callWeChatApi h markdown title config) = Normal result ->
  Wire.success result = true /\
  exists response,
    fetch h (buildRequest markdown title config) = Normal response /\
    200 <= status response <= 299 /\
    json response = Normal result.
Proof.
  rewrite callWeChatApi_run. cbv zeta.
  destruct (fetch h _) as [response|e]; [|discriminate].
  destruct (ok response) eqn:Hok; [|discriminate].
  destruct (json response) as [r|e] eqn:Hj; [|discriminate].
  destruct (Wire.success r) eqn:Hr; [|discriminate].
  intros [= <-]. split; [exact Hr|]. exists response.
  split; [reflexivity|]. split; [now apply ok_range | exact Hj].
Qed.

Lemma uploadToWeChat_fetch (h : Env) (request : Wire.Request) :
  In (Fetch request) (calls (uploadToWeChat unicodeUpper h)) ->
  exists document config title,
    ReadyToUpload unicodeUpper h document config title /\
    request = buildRequest (getText document) title config /\
    Wire.getProp (Wire.body request) (js "markdown")
    = Some (getText document) /\
    Wire.getProp (Wire.body request) (js "title") = Some title.
Proof.
  intros Hin.
  destruct (uploadToWeChat_cases unicodeUpper h)
    as [(_ & Hrun & _)|[[message Hrun]|(document & config & title & Hr)]].
  - exfalso. rewrite Hrun in Hin. cbn [calls fst] in Hin.
    destruct (getConfiguration_cases h) as [(_ & _ & Hc)|[_ Hc]];
      rewrite Hc in Hin; cbn [calls fst] in Hin; [exact Hin|].
    cbv zeta in Hin. destruct (bool_decide _); cbn [In] in Hin;
      repeat (destruct Hin as [Hin|Hin]; [discriminate Hin|]); exact Hin.
  - exfalso. rewrite Hrun in Hin. cbn [calls fst In] in Hin.
    destruct Hin as [Hin|Hin]; [discriminate Hin | exact Hin].
  - exists document, config, title. split; [exact Hr|].
    assert (Hreq : request = buildRequest (getText document) title config).
    { rewrite (uploadToWeChat_ready unicodeUpper h _ _ _ Hr) in Hin.
      destruct (callWeChatApi_calls h (getText document) title config)
        as (tail & Hcalls & Htail).
      destruct (uploadTask_cases h (getText document) title config)
        as [(e & _ & Ht)|[(r & d & _ & _ & Ht)|(r & _ & _ & Ht)]];
        rewrite Ht in Hin; clear Ht.
      - rewrite Hcalls in Hin. cbn [calls fst In app] in Hin.
        destruct Hin as [Hin|[Hin|[Hin|Hin]]]; try discriminate Hin.
        + now injection Hin.
        + exfalso. apply in_app_or in Hin as [Hin|Hin].
          * destruct Htail as [-> | [-> | ->]]; cbn [In] in Hin;
              repeat (destruct Hin as [Hin|Hin]; [discriminate Hin|]);
              exact Hin.
          * cbn [In] in Hin.
            repeat (destruct Hin as [Hin|Hin]; [discriminate Hin|]).
            exact Hin.
      - cbv zeta in Hin. cbn [calls fst app In] in Hin.
        destruct Hin as [Hin|[Hin|[Hin|Hin]]]; try discriminate Hin.
        + now injection Hin.
        + exfalso. destruct (bool_decide _); cbn [In] in Hin;
            repeat (destruct Hin as [Hin|Hin]; [discriminate Hin|]);
            exact Hin.
      - cbn [calls fst app In] in Hin.
        destruct Hin as [Hin|[Hin|[Hin|Hin]]]; try discriminate Hin.
        + now injection Hin.
        + exfalso.
          repeat (destruct Hin as [Hin|Hin]; [discriminate Hin|]).
          exact Hin. }
    split; [exact Hreq|]. subst request.
    destruct (buildRequestBody_required (getText document) title config)
      as (Hm & Ht & _).
    now split.
Qed.

(** X11. The server is contacted only after every check has passed, and then
    with the document text as it is in the editor (not trimmed), the
    extracted title and the configuration that was read. *)
Theorem fetch_only_when_ready (h : Env) (request : Wire.Request) :
  In (Fetch request) (calls (uploadToWeChat unicodeUpper h)) ->
  exists document config title,
    ReadyToUpload unicodeUpper h document config title /\
    request = buildRequest (getText document) title config /\
    Wire.getProp (Wire.body request) (js "markdown")
    = Some (getText document) /\
    Wire.getProp (Wire.body request) (js "title") = Some title.
Proof. apply uploadToWeChat_fetch. Qed.

(** X12. The clipboard is written only with the media id of a payload the
    server returned, and only after the user picked the copy item on the
    success notification. *)
Theorem clipboard_only_on_request (h : Env) (value : str) :
  In (ClipboardWriteText value) (calls (uploadToWeChat unicodeUpper h)) ->
  exists document config title result d,
    ReadyToUpload unicodeUpper h document config title /\
    outcome (callWeChatApi h (getText document) title config)
    = Normal result /\
    Wire.data result = Some d /\
    value = Wire.media_id d /\
    pick h
      (js "✅ 上传成功！" ++ [10] ++ js "标题：" ++ Wire.title d
         ++ [10] ++ js "Media ID：" ++ Wire.media_id d)
      [js "复制 Media ID"; js "关闭"]
    = Some (js "复制 Media ID").
Proof.
  intros Hin.
  destruct (uploadToWeChat_cases unicodeUpper h)
    as [(_ & Hrun & _)|[[message Hrun]|(document & config & title & Hr)]].
  - exfalso. rewrite Hrun in Hin. cbn [calls fst] in Hin.
    destruct (getConfiguration_cases h) as [(_ & _ & Hc)|[_ Hc]];
      rewrite Hc in Hin; cbn [calls fst] in Hin; [exact Hin|].
    cbv zeta in Hin. destruct (bool_decide _); cbn [In] in Hin;
      repeat (destruct Hin as [Hin|Hin]; [discriminate Hin|]); exact Hin.
  - exfalso. rewrite Hrun in Hin. cbn [calls fst In] in Hin.
    destruct Hin as [Hin|Hin]; [discriminate Hin | exact Hin].
  - exists document, config, title.
    rewrite (uploadToWeChat_ready unicodeUpper h _ _ _ Hr) in Hin.
    destruct (callWeChatApi_calls h (getText document) title config)
      as (tail & Hcalls & Htail).
    destruct (uploadTask_cases h (getText document) title config)
      as [(e & _ & Ht)|[(r & d & Hn & Hd & Ht)|(r & _ & _ & Ht)]];
      rewrite Ht in Hin; clear Ht.
    + exfalso. rewrite Hcalls in Hin. cbn [calls fst In app] in Hin.
      destruct Hin as [Hin|[Hin|[Hin|Hin]]]; try discriminate Hin.
      apply in_app_or in Hin as [Hin|Hin].
      * destruct Htail as [-> | [-> | ->]]; cbn [In] in Hin;
          repeat (destruct Hin as [Hin|Hin]; [discriminate Hin|]);
          exact Hin.
      * cbn [In] in Hin.
        repeat (destruct Hin as [Hin|Hin]; [discriminate Hin|]).
        exact Hin.
    + exists r, d. split; [exact Hr|]. split; [exact Hn|].
      split; [exact Hd|]. cbv zeta in Hin. cbn [calls fst app In] in Hin.
      destruct (bool_decide _) eqn:Hpick.
      * apply bool_decide_eq_true_1 in Hpick. split; [|exact Hpick].
        cbn [In] in Hin.
        repeat (destruct Hin as [Hin|Hin];
                [first [discriminate Hin | now injection Hin]|]).
        destruct Hin.
      * exfalso. cbn [In] in Hin.
        repeat (destruct Hin as [Hin|Hin]; [discriminate Hin|]).
        exact Hin.
    + exfalso. cbn [calls fst app In] in Hin.
      repeat (destruct Hin as [Hin|Hin]; [discriminate Hin|]).
      exact Hin.
Qed.

(** X13. The progress notification reaches 100 percent exactly when the
    remote call completed normally. *)
Theorem progress_completes_iff (h : Env) (markdown title : str)
    (config : Wire.WeChatConfig) :
  In (ProgressReport 100 (js "上传完成"))
    (calls (uploadTask h markdown title config))
  <-> exists result,
        outcome (callWeChatApi h markdown title config) = Normal result.
Proof.
  destruct (callWeChatApi_calls h markdown title config)
    as (tail & Hcalls & Htail).
  destruct (uploadTask_cases h markdown title config)
    as [(e & He & Ht)|[(r & d & Hn & _ & Ht)|(r & Hn & _ & Ht)]];
    rewrite Ht; clear Ht.
  - split.
    + intros Hin. exfalso. rewrite Hcalls in Hin.
      cbn [calls fst In] in Hin.
      destruct Htail as [-> | [-> | ->]]; cbn [In] in Hin;
        repeat (destruct Hin as [Hin|Hin]; [discriminate Hin|]);
        exact Hin.
    + intros [r Hr]. congruence.
  - split; [now exists r|]. intros _. cbv zeta. cbn [calls fst app In].
    do 3 right. now left.
  - split; [now exists r|]. intros _. cbn [calls fst In].
    do 3 right. now left.
Qed.

End CommandSafety.

(** ** More on title extraction *)

Section TitleProperties.

Variable unicodeUpper : N -> N.

Local Abbreviation spaces := (Forall (fun c => isSpace c = true)).

Lemma trim_empty_spaces (s : str) : trim s = [] -> spaces s.
Proof.
  intros H. destruct (trim_split s) as (l & r & Hs & Hl & Hr).
  rewrite H in Hs. simpl in Hs. rewrite Hs. now apply Forall_app.
Qed.

Lemma placeholder_not_empty : js "未命名文档" <> [].
Proof. vm_compute. discriminate. Qed.

(** A run of white space cannot extend past a character that is not
    white space. *)
Lemma spaces_prefix_length (l1 l2 r1 r2 : str) (c : N) :
  l1 ++ c :: r1 = l2 ++ r2 -> spaces l2 -> isSpace c = false ->
  (length l2 <= length l1)%nat.
Proof.
  revert l2. induction l1 as [|a l1 IH]; intros l2 Heq Hl2 Hc.
  - destruct l2 as [|b l2]; [simpl; lia|exfalso].
    simpl in Heq. injection Heq as <- _.
    inversion Hl2; subst. congruence.
  - destruct l2 as [|b l2]; [simpl; lia|].
    simpl in Heq. injection Heq as <- Heq.
    inversion Hl2; subst. simpl. apply le_n_S. now apply IH.
Qed.

(** X14. [extractTitle] returns the empty string exactly when the first
    heading of the text has a heading text made of white space only; the
    file-name rule and the placeholder never give an empty title. *)
Theorem empty_title_iff_blank_heading (document : TextDocument) :
  extractTitle unicodeUpper document = Some [] <->
  exists cap, FirstHeading (getText document) cap /\ spaces cap.
Proof.
  split.
  - intros H.
    destruct (title_match_spec unicodeUpper (getText document))
      as [(cap & Hf & _)|[Hno _]].
    + exists cap. split; [exact Hf|]. apply trim_empty_spaces.
      rewrite (extractTitle_heading unicodeUpper _ _ Hf) in H.
      now injection H.
    + exfalso.
      destruct (fileName_match_spec unicodeUpper (fileName document))
        as [(base & Hb & _)|[Hnb _]].
      * rewrite (extractTitle_basename unicodeUpper _ _ Hno Hb) in H.
        injection H as ->. destruct Hb as (dir & ext & [_ _ [Hne _] _]).
        congruence.
      * rewrite (extractTitle_fallback unicodeUpper _ Hno Hnb) in H.
        destruct (isUntitled document); [|discriminate].
        injection H as H. now apply placeholder_not_empty.
  - intros (cap & Hf & Hs).
    rewrite (extractTitle_heading unicodeUpper _ _ Hf).
    now rewrite (trim_spaces _ Hs).
Qed.

(** X15. A text that begins with [#], white space (which may include line
    terminators) and a line of text has that line, trimmed, as its title,
    whatever follows and whatever the path. *)
Theorem leading_heading_title (document : TextDocument)
    (ws rest post : str) (c : N) :
  getText document = 35 :: ws ++ (c :: rest) ++ post ->
  ws <> [] -> spaces ws ->
  isSpace c = false ->
  Forall (fun d => isLineTerminator d = false) rest ->
  LineEnd post ->
  extractTitle unicodeUpper document = Some (trim (c :: rest)).
Proof.
  intros Htext Hne Hws Hc Hrest Hend.
  apply extractTitle_heading.
  assert (Hcl : isLineTerminator c = false).
  { unfold isSpace in Hc. now apply orb_false_iff in Hc as [_ Hc]. }
  exists [], ws, post. split.
  - constructor; [exact Htext | now left | now split | | exact Hend].
    split; [discriminate | now constructor].
  - intros pre' ws' cap' post' [Hs' _ [_ Hws'] _ _].
    split; [simpl; lia|]. intros Hlen.
    destruct pre' as [|? ?]; [|discriminate Hlen].
    rewrite Htext in Hs'. simpl in Hs'. injection Hs' as Hs'.
    now apply (spaces_prefix_length ws ws' (rest ++ post) (cap' ++ post') c).
Qed.

(** X16. If no [#] of the text is followed by a white-space character, the
    text plays no part in the title: the result is the one of the empty
    text with the same path and flag. *)
Theorem text_without_heading_marker_ignored (document : TextDocument) :
  (forall pre c post,
     getText document = pre ++ 35 :: c :: post -> isSpace c = false) ->
  extractTitle unicodeUpper document
  = extractTitle unicodeUpper
      {| getText := []; fileName := fileName document;
         isUntitled := isUntitled document;
         languageId := languageId document |}.
Proof.
  intros Hmark.
  assert (H1 : ~ HasHeading (getText document)).
  { intros (pre & ws & cap & post & [Hs _ [Hne Hws] _ _]).
    destruct ws as [|c ws]; [congruence|].
    inversion Hws as [|? ? Hc _]; subst.
    simpl in Hs. rewrite (Hmark _ _ _ Hs) in Hc. discriminate. }
  assert (H2 : ~ HasHeading []).
  { intros (pre & ws & cap & post & [Hs _ _ _ _]).
    now destruct pre. }
  unfold extractTitle. cbn [getText fileName isUntitled].
  now rewrite (title_match_none unicodeUpper _ H1),
              (title_match_none unicodeUpper _ H2).
Qed.

(** X17. A file whose name is only the extension ([.md], [dir/.md]) has no
    basename to use: without a heading the title is the placeholder for
    an untitled document and null otherwise. *)
Theorem bare_extension_has_no_title (document : TextDocument)
    (dir ext : str) :
  ~ HasHeading (getText document) ->
  fileName document = dir ++ ext ->
  MdExtension ext ->
  (dir = [] \/ exists dir' c, dir = dir' ++ [c] /\ isSeparator c = true) ->
  extractTitle unicodeUpper document
  = if isUntitled document then Some (js "未命名文档") else None.
Proof.
  intros Hno Hname Hext Hdir. apply extractTitle_fallback; [exact Hno|].
  intros (base & d & e & [Hs _ [Hne Hbase] He]).
  rewrite Hname in Hs. rewrite app_assoc in Hs.
  apply app_inj_2 in Hs as [Hs _].
  2: { now rewrite (MdExtension_length _ Hext), (MdExtension_length _ He). }
  destruct base as [|x base' _] using rev_ind; [congruence|].
  destruct Hdir as [->|(dir' & c & -> & Hc)].
  - rewrite app_assoc in Hs. now destruct (d ++ base').
  - rewrite app_assoc in Hs. apply app_inj_tail in Hs as [_ ->].
    apply Forall_app in Hbase as [_ Hx].
    inversion Hx; subst. congruence.
Qed.

(** X18. Whatever title [extractTitle] returns comes from exactly one rule:
    it is the trimmed text of the first heading (and then has no white
    space at either end), or, without a heading, the basename of the
    path, or, without either, the placeholder of an untitled document. *)
Theorem extractTitle_Some_cases (document : TextDocument) (title : str) :
  extractTitle unicodeUpper document = Some title ->
  (exists cap, FirstHeading (getText document) cap /\
     title = trim cap /\ Trimmed title) \/
  (~ HasHeading (getText document) /\
     MdBasename (fileName document) title /\ title <> []) \/
  (~ HasHeading (getText document) /\
     ~ HasMdBasename (fileName document) /\
     isUntitled document = true /\ title = js "未命名文档").
Proof.
  intros H.
  destruct (title_match_spec unicodeUpper (getText document))
    as [(cap & Hf & _)|[Hno _]].
  - left. exists cap. split; [exact Hf|].
    rewrite (extractTitle_heading unicodeUpper _ _ Hf) in H.
    injection H as <-. split; [reflexivity | apply trim_Trimmed].
  - right.
    destruct (fileName_match_spec unicodeUpper (fileName document))
      as [(base & Hb & _)|[Hnb _]].
    + left. rewrite (extractTitle_basename unicodeUpper _ _ Hno Hb) in H.
      injection H as <-. split; [exact Hno|]. split; [exact Hb|].
      now destruct Hb as (dir & ext & [_ _ [Hne _] _]).
    + right. rewrite (extractTitle_fallback unicodeUpper _ Hno Hnb) in H.
      destruct (isUntitled document); [|discriminate].
      injection H as <-. auto.
Qed.

(** X19. [extractTitle] returns null exactly when the text has no heading,
    the path has no [.md] basename and the document is not untitled. *)
Theorem extractTitle_None_iff (document : TextDocument) :
  extractTitle unicodeUpper document = None <->
  ~ HasHeading (getText document) /\
  ~ HasMdBasename (fileName document) /\
  isUntitled document = false.
Proof.
  split.
  - intros H.
    destruct (title_match_spec unicodeUpper (getText document))
      as [(cap & Hf & _)|[Hno _]].
    + now rewrite (extractTitle_heading unicodeUpper _ _ Hf) in H.
    + destruct (fileName_match_spec unicodeUpper (fileName document))
        as [(base & Hb & _)|[Hnb _]].
      * now rewrite (extractTitle_basename unicodeUpper _ _ Hno Hb) in H.
      * rewrite (extractTitle_fallback unicodeUpper _ Hno Hnb) in H.
        now destruct (isUntitled document).
  - intros (Hno & Hnb & Hu).
    rewrite (extractTitle_fallback unicodeUpper _ Hno Hnb). now rewrite Hu.
Qed.

End TitleProperties.

(** ** From the settings to the request *)

Section SettingsToRequest.

(** X20. The optional settings reach the request trimmed, and only when they
    are not blank: the body has an [author] (resp. [digest]) property
    exactly when the trimmed setting is non-empty, and its value is the
    trimmed setting; [appid] and [app_secret] carry the trimmed required
    settings. *)
Theorem settings_reach_request (h : Env) (config : Wire.WeChatConfig)
    (markdown title : str) :
  outcome (getConfiguration h) = Normal (Some config) ->
  Wire.getProp (buildRequestBody markdown title config) (js "appid")
  = Some (trim (get h (js "appid") [])) /\
  Wire.getProp (buildRequestBody markdown title config) (js "app_secret")
  = Some (trim (get h (js "appSecret") [])) /\
  Wire.getProp (buildRequestBody markdown title config) (js "author")
  = (if truthy (trim (get h (js "author") []))
     then Some (trim (get h (js "author") [])) else None) /\
  Wire.getProp (buildRequestBody markdown title config) (js "digest")
  = (if truthy (trim (get h (js "digest") []))
     then Some (trim (get h (js "digest") [])) else None).
Proof.
  intros Hc.
  destruct (getConfiguration_cases h) as [(_ & _ & Hrun)|[_ Hrun]];
    rewrite Hrun in Hc; [|discriminate Hc].
  injection Hc as <-. unfold buildRequestBody, orUndefined.
  cbn [Wire.author Wire.digest Wire.appid Wire.appSecret].
  destruct (trim (get h (js "author") [])) as [|c a];
    destruct (trim (get h (js "digest") [])) as [|e d];
    cbn [truthy]; repeat split; reflexivity.
Qed.

End SettingsToRequest.

(** ** Further instances on the sample hosts *)

Lemma sample_ready (answer : Completion Response) (choice : option str) :
  ReadyToUpload Sample.upper
    (Sample.env Sample.settings
       (Some (Sample.document "# T" "/notes/t.md")) answer choice)
    (Sample.document "# T" "/notes/t.md") Sample.config (js "T").
Proof.
  unfold ReadyToUpload.
  split; [vm_compute; reflexivity|]. split; [reflexivity|].
  split; [reflexivity|]. split; [vm_compute; discriminate|].
  split; [vm_compute; reflexivity | vm_compute; discriminate].
Qed.

Lemma invalid_configuration_aborts_witness :
  uploadToWeChat Sample.upper
    (Sample.env ∅ (Some (Sample.document "# T" "/notes/t.md"))
       (Throw OtherValue) (Some (js "打开设置")))
  = ([ShowErrorMessage (js "请先在设置中配置微信公众号的 AppID 和 AppSecret")
        [js "打开设置"];
      ExecuteCommand (js "workbench.action.openSettings")
        [js "markdown2weixin"]],
     Normal tt).
Proof.
  refine (eq_trans
            (invalid_configuration_aborts Sample.upper
               (Sample.env ∅ (Some (Sample.document "# T" "/notes/t.md"))
                  (Throw OtherValue) (Some (js "打开设置"))) _) _).
  - left. vm_compute. reflexivity.
  - vm_compute. reflexivity.
Defined.

Lemma no_editor_aborts_witness :
  uploadToWeChat Sample.upper
    (Sample.env Sample.settings None (Throw OtherValue) None)
  = ([ShowErrorMessage (js "请先打开一个 Markdown 文件") []], Normal tt).
Proof.
  apply (no_editor_aborts Sample.upper
           (Sample.env Sample.settings None (Throw OtherValue) None)
           Sample.config).
  - vm_compute. reflexivity.
  - reflexivity.
Defined.

Lemma wrong_language_aborts_witness :
  let document :=
    {| getText := js "# T"; fileName := js "/notes/t.txt";
       isUntitled := false; languageId := js "plaintext" |} in
  uploadToWeChat Sample.upper
    (Sample.env Sample.settings (Some document) (Throw OtherValue) None)
  = ([ShowErrorMessage (js "当前文件不是 Markdown 文件") []], Normal tt).
Proof.
  cbv zeta.
  apply (wrong_language_aborts Sample.upper
           (Sample.env Sample.settings
              (Some {| getText := js "# T"; fileName := js "/notes/t.txt";
                       isUntitled := false; languageId := js "plaintext" |})
              (Throw OtherValue) None)
           Sample.config
           {| getText := js "# T"; fileName := js "/notes/t.txt";
              isUntitled := false; languageId := js "plaintext" |}).
  - vm_compute. reflexivity.
  - reflexivity.
  - vm_compute. discriminate.
Defined.

Lemma blank_document_aborts_witness :
  uploadToWeChat Sample.upper
    (Sample.env Sample.settings (Some (Sample.document "   " "/notes/t.md"))
       (Throw OtherValue) None)
  = ([ShowErrorMessage (js "文档内容为空，无法上传") []], Normal tt).
Proof.
  apply (blank_document_aborts Sample.upper
           (Sample.env Sample.settings
              (Some (Sample.document "   " "/notes/t.md"))
              (Throw OtherValue) None)
           Sample.config (Sample.document "   " "/notes/t.md")).
  - vm_compute. reflexivity.
  - reflexivity.
  - reflexivity.
  - vm_compute. repeat constructor.
Defined.

Lemma upload_failure_reported_witness :
  uploadToWeChat Sample.upper
    (Sample.env Sample.settings (Some (Sample.document "# T" "/notes/t.md"))
       (Normal (Sample.response 200 "not json"
                  (Throw (ErrorObject (js "Unexpected token")))))
       None)
  = ([WithProgress (js "正在上传到微信公众号...");
      ProgressReport 0 (js "准备上传...");
      Fetch (buildRequest (js "# T") (js "T") Sample.config);
      ResponseJson;
      ShowErrorMessage (js "❌ 上传失败：Unexpected token") [];
      ConsoleError (js "上传错误：") (ErrorObject (js "Unexpected token"))],
     Normal tt).
Proof.
  refine (eq_trans
            (upload_failure_reported Sample.upper _ _ _ _
               (ErrorObject (js "Unexpected token"))
               (sample_ready _ None) _) _).
  - vm_compute. reflexivity.
  - vm_compute. reflexivity.
Defined.

Lemma http_error_shown_witness :
  calls
    (uploadToWeChat Sample.upper
       (Sample.env Sample.settings
          (Some (Sample.document "# T" "/notes/t.md"))
          (Normal (Sample.response 500 "boom" (Throw OtherValue))) None))
  = [WithProgress (js "正在上传到微信公众号...");
     ProgressReport 0 (js "准备上传...");
     Fetch (buildRequest (js "# T") (js "T") Sample.config);
     ResponseText;
     ShowErrorMessage (js "❌ 上传失败：HTTP 500: boom") [];
     ConsoleError (js "上传错误：") (ErrorObject (js "HTTP 500: boom"))].
Proof.
  refine (eq_trans
            (http_error_shown Sample.upper _ _ _ _
               (Sample.response 500 "boom" (Throw OtherValue))
               (sample_ready _ None) eq_refl _) _).
  - right. vm_compute. reflexivity.
  - vm_compute. reflexivity.
Defined.

Lemma network_failure_shown_witness :
  calls
    (uploadToWeChat Sample.upper
       (Sample.env Sample.settings
          (Some (Sample.document "# T" "/notes/t.md"))
          (Throw OtherValue) None))
  = [WithProgress (js "正在上传到微信公众号...");
     ProgressReport 0 (js "准备上传...");
     Fetch (buildRequest (js "# T") (js "T") Sample.config);
     ShowErrorMessage (js "❌ 上传失败：未知错误") [];
     ConsoleError (js "上传错误：") OtherValue].
Proof.
  refine (eq_trans
            (network_failure_shown Sample.upper _ _ _ _ OtherValue
               (sample_ready _ None) eq_refl) _).
  vm_compute. reflexivity.
Defined.

Lemma upload_success_presented_witness :
  calls
    (uploadToWeChat Sample.upper
       (Sample.env Sample.settings
          (Some (Sample.document "# T" "/notes/t.md"))
          (Normal (Sample.response 200 ""
                     (Normal (Sample.reply true (Some Sample.draft)
                                None None))))
          (Some (js "复制 Media ID"))))
  = [WithProgress (js "正在上传到微信公众号...");
     ProgressReport 0 (js "准备上传...");
     Fetch (buildRequest (js "# T") (js "T") Sample.config);
     ResponseJson;
     ProgressReport 100 (js "上传完成");
     ShowInformationMessage
       (js "✅ 上传成功！" ++ [10] ++ js "标题：T" ++ [10]
          ++ js "Media ID：abc123")
       [js "复制 Media ID"; js "关闭"];
     ClipboardWriteText (js "abc123");
     ShowInformationMessage (js "Media ID 已复制到剪贴板") []].
Proof.
  refine (eq_trans
            (f_equal calls
               (upload_success_presented Sample.upper
                  (Sample.env Sample.settings
                     (Some (Sample.document "# T" "/notes/t.md"))
                     (Normal (Sample.response 200 ""
                        (Normal (Sample.reply true (Some Sample.draft)
                                   None None))))
                     (Some (js "复制 Media ID")))
                  (Sample.document "# T" "/notes/t.md") Sample.config (js "T")
                  (Sample.reply true (Some Sample.draft) None None)
                  Sample.draft
                  (sample_ready _ (Some (js "复制 Media ID"))) _ eq_refl)) _).
  - vm_compute. reflexivity.
  - vm_compute. reflexivity.
Defined.

Lemma callWeChatApi_returns_only_success_witness :
  Wire.success (Sample.reply true (Some Sample.draft) None None) = true.
Proof.
  exact (proj1 (callWeChatApi_returns_only_success
                  (Sample.env Sample.settings None
                     (Normal (Sample.response 200 ""
                        (Normal (Sample.reply true (Some Sample.draft)
                                   None None)))) None)
                  (js "# T") (js "T") Sample.config
                  (Sample.reply true (Some Sample.draft) None None)
                  ltac:(vm_compute; reflexivity))).
Defined.

Lemma fetch_only_when_ready_witness :
  exists document config title,
    ReadyToUpload Sample.upper
      (Sample.env Sample.settings
         (Some (Sample.document "# T" "/notes/t.md"))
         (Throw OtherValue) None)
      document config title /\
    buildRequest (js "# T") (js "T") Sample.config
    = buildRequest (getText document) title config /\
    Wire.getProp
      (Wire.body (buildRequest (js "# T") (js "T") Sample.config))
      (js "markdown") = Some (getText document) /\
    Wire.getProp
      (Wire.body (buildRequest (js "# T") (js "T") Sample.config))
      (js "title") = Some title.
Proof.
  apply (fetch_only_when_ready Sample.upper).
  vm_compute. right. right. left. reflexivity.
Defined.

Lemma clipboard_only_on_request_witness :
  exists document config title result d,
    ReadyToUpload Sample.upper
      (Sample.env Sample.settings
         (Some (Sample.document "# T" "/notes/t.md"))
         (Normal (Sample.response 200 ""
                    (Normal (Sample.reply true (Some Sample.draft)
                               None None))))
         (Some (js "复制 Media ID")))
      document config title /\
    outcome
      (callWeChatApi
         (Sample.env Sample.settings
            (Some (Sample.document "# T" "/notes/t.md"))
            (Normal (Sample.response 200 ""
                       (Normal (Sample.reply true (Some Sample.draft)
                                  None None))))
            (Some (js "复制 Media ID")))
         (getText document) title config) = Normal result /\
    Wire.data result = Some d /\
    js "abc123" = Wire.media_id d /\
    Some (js "复制 Media ID") = Some (js "复制 Media ID").
Proof.
  apply (clipboard_only_on_request Sample.upper
           (Sample.env Sample.settings
              (Some (Sample.document "# T" "/notes/t.md"))
              (Normal (Sample.response 200 ""
                         (Normal (Sample.reply true (Some Sample.draft)
                                    None None))))
              (Some (js "复制 Media ID")))
           (js "abc123")).
  vm_compute. do 6 right. left. reflexivity.
Defined.

Lemma leading_heading_title_witness :
  extractTitle Sample.upper
    {| getText := [35; 10; 10] ++ js "Intro  " ++ [13; 10] ++ js "# Later";
       fileName := js "/notes/t.md"; isUntitled := false;
       languageId := js "markdown" |}
  = Some (js "Intro").
Proof.
  refine (eq_trans
            (leading_heading_title Sample.upper _ [10; 10] (js "ntro  ")
               ([13; 10] ++ js "# Later") 73 _ _ _ _ _ _) _).
  - vm_compute. reflexivity.
  - discriminate.
  - repeat constructor.
  - reflexivity.
  - vm_compute. repeat constructor.
  - right. exists 13, (10 :: js "# Later"). split; reflexivity.
  - vm_compute. reflexivity.
Defined.

Lemma text_without_heading_marker_ignored_witness :
  extractTitle Sample.upper (Sample.document "#Title" "/notes/t.md")
  = extractTitle Sample.upper
      {| getText := []; fileName := js "/notes/t.md"; isUntitled := false;
         languageId := js "markdown" |}.
Proof.
  apply (text_without_heading_marker_ignored Sample.upper
           (Sample.document "#Title" "/notes/t.md")).
  intros pre c post H. vm_compute in H.
  destruct pre as [|p0 pre]; simpl in H.
  - injection H as <- _. vm_compute. reflexivity.
  - exfalso. injection H as _ H.
    repeat (destruct pre as [|? pre]; simpl in H;
            [discriminate H | injection H as _ H]).
    destruct pre; discriminate H.
Defined.

Lemma bare_extension_has_no_title_witness :
  extractTitle Sample.upper (Sample.document "plain" "/notes/.md") = None.
Proof.
  refine (eq_trans
            (bare_extension_has_no_title Sample.upper
               (Sample.document "plain" "/notes/.md")
               (js "/notes/") (js ".md") _ _ _ _) _).
  - apply (no_heading_by_match Sample.upper). vm_compute. reflexivity.
  - vm_compute. reflexivity.
  - exists 109, 100. split; [vm_compute; reflexivity|]. split; now left.
  - right. exists (js "/notes"), 47. split; vm_compute; reflexivity.
  - reflexivity.
Defined.

Lemma extractTitle_Some_cases_witness :
  (exists cap,
     FirstHeading (getText (Sample.document "# T" "/notes/t.md")) cap /\
     js "T" = trim cap /\ Trimmed (js "T")) \/
  (~ HasHeading (getText (Sample.document "# T" "/notes/t.md")) /\
     MdBasename (fileName (Sample.document "# T" "/notes/t.md")) (js "T") /\
     js "T" <> []) \/
  (~ HasHeading (getText (Sample.document "# T" "/notes/t.md")) /\
     ~ HasMdBasename (fileName (Sample.document "# T" "/notes/t.md")) /\
     isUntitled (Sample.document "# T" "/notes/t.md") = true /\
     js "T" = js "未命名文档").
Proof.
  apply (extractTitle_Some_cases Sample.upper).
  vm_compute. reflexivity.
Defined.

Lemma settings_reach_request_witness :
  let config :=
    {| Wire.appid := js "wx123"; Wire.appSecret := js "secret";
       Wire.author := None; Wire.digest := Some (js "news") |} in
  Wire.getProp (buildRequestBody (js "# T") (js "T") config) (js "author")
  = None /\
  Wire.getProp (buildRequestBody (js "# T") (js "T") config) (js "digest")
  = Some (js "news").
Proof.
  cbv zeta.
  assert (Hc : outcome
                 (getConfiguration
                    (Sample.env
                       (<[js "author" := js "   "]>
                          (<[js "digest" := js " news "]> Sample.settings))
                       None (Throw OtherValue) None))
               = Normal (Some
                   {| Wire.appid := js "wx123"; Wire.appSecret := js "secret";
                      Wire.author := None; Wire.digest := Some (js "news") |}))
    by (vm_compute; reflexivity).
  pose proof (settings_reach_request _ _ (js "# T") (js "T") Hc) as H.
  apply proj2, proj2 in H. destruct H as [Ha Hd]. split.
  - exact (eq_trans Ha ltac:(vm_compute; reflexivity)).
  - exact (eq_trans Hd ltac:(vm_compute; reflexivity)).
Defined.

(** ** Headings read by lines, and the body of every request *)

Section LinesAndRequests.

Variable unicodeUpper : N -> N.

(** C3. The claim fails on the text [# ], line feed, [# Real]. Read by
    lines, the first line is the marker and a space with no heading text,
    so the only heading line is the second one and its heading text is
    [Real]. The pattern's white-space class contains the line feed: the
    run after the first marker crosses it, and [extractTitle] returns
    [# Real], marker included, for every path, flag and language. *)
Theorem first_heading_line_divergence :
  LineHeadingAt ([35; 32; 10] ++ js "# Real")
    [35; 32; 10] [32] (js "Real") [] /\
  (forall pre ws cap post,
     LineHeadingAt ([35; 32; 10] ++ js "# Real") pre ws cap post ->
     pre = [35; 32; 10] /\ cap = js "Real") /\
  forall (path : str) (untitled : bool) (language : str),
    extractTitle unicodeUpper
      {| getText := [35; 32; 10] ++ js "# Real"; fileName := path;
         isUntitled := untitled; languageId := language |}
    = Some (js "# Real") /\
    Some (js "# Real") <> Some (trim (js "Real")).
Proof.
  split; [|split].
  - constructor.
    + vm_compute. reflexivity.
    + right. exists [35; 32], 10. split; reflexivity.
    + split; [discriminate|]. repeat constructor.
    + split; [vm_compute; discriminate|]. vm_compute. repeat constructor.
    + now left.
  - intros pre ws cap post [Hs _ [Hne Hws] [Hce Hcap] Hend].
    vm_compute in Hs.
    assert (Hlt : forall c l, Forall (fun c => isLineTerminator c = false)
                                 (c :: l) -> isLineTerminator c = false).
    { intros c l H. now inversion H. }
    assert (Hsp : forall c l,
               Forall (fun c => isSpace c = true /\
                                isLineTerminator c = false) (c :: l) ->
               isSpace c = true /\ isLineTerminator c = false).
    { intros c l H. now inversion H. }
    assert (Hsp' : forall c l,
               Forall (fun c => isSpace c = true /\
                                isLineTerminator c = false) (c :: l) ->
               Forall (fun c => isSpace c = true /\
                                isLineTerminator c = false) l).
    { intros c l H. now inversion H. }
    assert (Hlt' : forall c l, Forall (fun c => isLineTerminator c = false)
                                  (c :: l) ->
                   Forall (fun c => isLineTerminator c = false) l).
    { intros c l H. now inversion H. }
    destruct pre as [|p0 pre]; simpl in Hs.
    { exfalso. injection Hs as Hs.
      destruct ws as [|w0 ws]; [congruence|]. simpl in Hs.
      injection Hs as <- Hs.
      destruct ws as [|w1 ws]; simpl in Hs.
      - destruct cap as [|c0 cap]; [congruence|]. simpl in Hs.
        injection Hs as <- _. apply Hlt in Hcap. discriminate Hcap.
      - injection Hs as <- _. apply Hsp', Hsp in Hws as [_ Hws].
        discriminate Hws. }
    injection Hs as <- Hs.
    destruct pre as [|p1 pre]; simpl in Hs; [discriminate Hs|].
    injection Hs as <- Hs.
    destruct pre as [|p2 pre]; simpl in Hs; [discriminate Hs|].
    injection Hs as <- Hs.
    destruct pre as [|p3 pre]; simpl in Hs.
    { split; [reflexivity|]. injection Hs as Hs.
      destruct ws as [|w0 ws]; [congruence|]. simpl in Hs.
      injection Hs as <- Hs.
      destruct ws as [|w1 ws]; simpl in Hs.
      2: { exfalso. injection Hs as <- _.
           apply Hsp', Hsp in Hws as [Hws _]. discriminate Hws. }
      assert (Hpost : forall c l, post = c :: l ->
                        isLineTerminator c = false -> False).
      { intros c l -> Hc. destruct Hend as [E|(e & q & E & He)];
          [discriminate E|]. injection E as <- _. congruence. }
      destruct cap as [|c0 cap]; [congruence|]. simpl in Hs.
      injection Hs as <- Hs.
      destruct cap as [|c1 cap]; simpl in Hs;
        [exfalso; now apply (Hpost _ _ (eq_sym Hs))|].
      injection Hs as <- Hs.
      destruct cap as [|c2 cap]; simpl in Hs;
        [exfalso; now apply (Hpost _ _ (eq_sym Hs))|].
      injection Hs as <- Hs.
      destruct cap as [|c3 cap]; simpl in Hs;
        [exfalso; now apply (Hpost _ _ (eq_sym Hs))|].
      injection Hs as <- Hs.
      destruct cap as [|c4 cap]; simpl in Hs; [reflexivity|].
      discriminate Hs. }
    exfalso. injection Hs as <- Hs.
    repeat (destruct pre as [|? pre]; simpl in Hs;
            [discriminate Hs | injection Hs as <- Hs]).
    destruct pre; discriminate Hs.
  - intros path untitled language. split.
    + rewrite (extractTitle_heading unicodeUpper _ (js "# Real"));
        [vm_compute; reflexivity|].
      apply (heading_by_match unicodeUpper). vm_compute. reflexivity.
    + vm_compute. discriminate.
Qed.

(** C9. Every request that the command sends (every [fetch] in a run of
    [uploadToWeChat], the only caller of [callWeChatApi]) has a body that
    holds the document text under [markdown], the title under [title] and
    the credentials of the configuration read from the settings under
    [appid] and [app_secret]; it has an [author] (resp. [digest])
    property if and only if that field of the configuration is present,
    and then with the field's value; it has no other property. *)
Theorem request_body_of_every_call (h : Env) (request : Wire.Request) :
  In (Fetch request) (calls (uploadToWeChat unicodeUpper h)) ->
  exists document config title,
    ReadyToUpload unicodeUpper h document config title /\
    request = buildRequest (getText document) title config /\
    Wire.getProp (Wire.body request) (js "markdown")
    = Some (getText document) /\
    Wire.getProp (Wire.body request) (js "title") = Some title /\
    Wire.getProp (Wire.body request) (js "appid")
    = Some (Wire.appid config) /\
    Wire.getProp (Wire.body request) (js "app_secret")
    = Some (Wire.appSecret config) /\
    (Wire.hasProp (Wire.body request) (js "author")
     <-> is_Some (Wire.author config)) /\
    (Wire.hasProp (Wire.body request) (js "digest")
     <-> is_Some (Wire.digest config)) /\
    Wire.getProp (Wire.body request) (js "author") = Wire.author config /\
    Wire.getProp (Wire.body request) (js "digest") = Wire.digest config /\
    (forall key,
       Wire.hasProp (Wire.body request) key ->
       In key [js "markdown"; js "title"; js "appid"; js "app_secret";
               js "author"; js "digest"]).
Proof.
  intros Hin.
  destruct (uploadToWeChat_fetch unicodeUpper h request Hin)
    as (document & config & title & Hr & Hreq & _).
  exists document, config, title. split; [exact Hr|].
  split; [exact Hreq|]. subst request. cbn [buildRequest Wire.body].
  destruct Hr as (Hc & _).
  destruct (request_body_optional h (getText document) title config Hc)
    as [Hau Hdi].
  destruct (getConfiguration_optional h config Hc) as [Hna Hnd].
  destruct (request_body_fields h (getText document) title config)
    as (_ & Hm & Ht & Hid & Hsec & _ & _ & Hau' & Hdi' & Hkeys).
  repeat (split; [assumption|]).
  split; [|split; [|exact Hkeys]].
  - destruct (Wire.getProp _ (js "author")) as [a|] eqn:Hg.
    + symmetry. now apply Hau'.
    + destruct (Wire.author config) as [a|] eqn:Ha; [|reflexivity].
      exfalso. destruct (proj2 Hau (ex_intro _ a eq_refl)) as [v Hv].
      unfold Wire.hasProp in *. congruence.
  - destruct (Wire.getProp _ (js "digest")) as [d|] eqn:Hg.
    + symmetry. now apply Hdi'.
    + destruct (Wire.digest config) as [d|] eqn:Hd; [|reflexivity].
      exfalso. destruct (proj2 Hdi (ex_intro _ d eq_refl)) as [v Hv].
      unfold Wire.hasProp in *. congruence.
Qed.

End LinesAndRequests.

Lemma request_body_of_every_call_witness :
  let settings : gmap str str :=
    <[js "author" := js " Ann "]> Sample.settings in
  let h := Sample.env settings (Some (Sample.document "# T" "/notes/t.md"))
             (Throw OtherValue) None in
  let config :=
    {| Wire.appid := js "wx123"; Wire.appSecret := js "secret";
       Wire.author := Some (js "Ann"); Wire.digest := None |} in
  exists document config' title,
    ReadyToUpload Sample.upper h document config' title /\
    buildRequest (js "# T") (js "T") config
    = buildRequest (getText document) title config' /\
    Wire.getProp (Wire.body (buildRequest (js "# T") (js "T") config))
      (js "markdown") = Some (getText document) /\
    Wire.getProp (Wire.body (buildRequest (js "# T") (js "T") config))
      (js "title") = Some title /\
    Wire.getProp (Wire.body (buildRequest (js "# T") (js "T") config))
      (js "appid") = Some (Wire.appid config') /\
    Wire.getProp (Wire.body (buildRequest (js "# T") (js "T") config))
      (js "app_secret") = Some (Wire.appSecret config') /\
    (Wire.hasProp (Wire.body (buildRequest (js "# T") (js "T") config))
       (js "author") <-> is_Some (Wire.author config')) /\
    (Wire.hasProp (Wire.body (buildRequest (js "# T") (js "T") config))
       (js "digest") <-> is_Some (Wire.digest config')) /\
    Wire.getProp (Wire.body (buildRequest (js "# T") (js "T") config))
      (js "author") = Wire.author config' /\
    Wire.getProp (Wire.body (buildRequest (js "# T") (js "T") config))
      (js "digest") = Wire.digest config' /\
    (forall key,
       Wire.hasProp (Wire.body (buildRequest (js "# T") (js "T") config))
         key ->
       In key [js "markdown"; js "title"; js "appid"; js "app_secret";
               js "author"; js "digest"]).
Proof.
  cbv zeta.
  apply (request_body_of_every_call Sample.upper).
  vm_compute. right. right. left. reflexivity.
Defined.
